(** * LangChainInterface: the langchain adapter of ibm-generative-ai

    A shallow embedding of [src/genai/extensions/langchain/llm.py]:
    the module's import prelude, the pydantic-validated constructor, and
    the two entry points [_call] (complete) and [_stream]
    (streamComplete), together with the properties the specification
    states about them. *)

From Stdlib Require Import String Ascii List Arith Lia.
From stdpp Require Import base list strings gmap.

Open Scope string_scope.

(** ** Stop-sequence truncation *)

Module Truncation.

(** [starts_with_any stop text]: does some stop string start at offset 0
    of [text]? *)
Definition starts_with_any (stop : list string) (text : string) : bool :=
  existsb (fun s => String.prefix s text) stop.

(** Modelled from the spec: [enforce_stop_tokens] is imported from
    [langchain.llms.utils] (llm.py line 11) and its body is not part of
    the sources.  The specification's truncation policy: find the
    earliest occurrence, by start offset, of any stop string within the
    text; if found, the text ends immediately before that occurrence; if
    no stop string occurs the text is returned unchanged; an empty stop
    list is a no-op.  The scan below walks the offsets of [text] from
    the left and cuts at the first one where a stop string starts. *)
Fixpoint enforce_stop_tokens (text : string) (stop : list string) : string :=
  if starts_with_any stop text then EmptyString
  else match text with
       | EmptyString => EmptyString
       | String c rest => String c (enforce_stop_tokens rest stop)
       end.

(** [occurs_at s T i]: the string [s] occurs in [T] with start offset [i]. *)
Definition occurs_at (s T : string) (i : nat) : Prop :=
  exists pre post, T = pre +:+ s +:+ post /\ String.length pre = i.

(** [T[0:i]] *)
Definition slice_to (T : string) (i : nat) : string := substring 0 i T.

End Truncation.

(** ** Data model *)

(** Modelled from the spec: [GenerateParams] is declared in
    [genai.schemas], which is not part of the sources.  The
    specification describes it as a configuration record
    [{streamEnabled: bool, stopSequences: ordered sequence of string,
    ...other generation knobs passed through verbatim}]; llm.py tests
    [params.stop_sequences is not None], so the stop list is optional.
    [knobs] stands for every other option. *)
Record GenerateParams {Knobs : Type} : Type := mkGenerateParams {
  stream : bool;
  stop_sequences : option (list string);
  knobs : Knobs
}.
Arguments GenerateParams : clear implicits.
Arguments mkGenerateParams {Knobs} _ _ _.

(** [params.stop_sequences = v] on a parameters value. *)
Definition with_stop_sequences {Knobs} (v : option (list string))
    (p : GenerateParams Knobs) : GenerateParams Knobs :=
  mkGenerateParams (stream p) v (knobs p).

(** The client handle [Model(model=..., params=..., credentials=...)] of
    [genai].  The handle is used for one request immediately after it is
    built, so it carries the value the parameters object has at that
    moment. *)
Record Model {Credentials Knobs : Type} : Type := mkModel {
  m_model : option string;
  m_params : GenerateParams Knobs;
  m_credentials : option Credentials
}.
Arguments Model : clear implicits.
Arguments mkModel {Credentials Knobs} _ _ _.

(** What the remote streaming request delivers: response units in
    arrival order, until the stream ends or fails. *)
Inductive RemoteStream {Response Exn : Type} : Type :=
| Ended
| Failed (e : Exn)
| Unit (response : Response) (rest : RemoteStream).
Arguments RemoteStream : clear implicits.

(** The outbound contract: the remote generation service and the types
    llm.py treats as opaque.  [generate] is [Model.generate], which
    returns one result per prompt or raises; [generate_stream] is
    [Model.generate_stream]; [dict] is the response unit's [.dict()]. *)
Class Service : Type := {
  Credentials : Type;
  Knobs : Type;
  default_knobs : Knobs;
  Kwargs : Type;
  Response : Type;
  Metadata : Type;
  Exn : Type;
  RunManager : Type;
  generated_text : Response -> string;
  dict : Response -> Metadata;
  generate : Model Credentials Knobs -> list string -> Kwargs -> Exn + list Response;
  generate_stream : Model Credentials Knobs -> list string -> Kwargs -> RemoteStream Response Exn
}.

(** A reference to a parameters object in the store. *)
Definition loc : Type := nat.

(** [class LangChainInterface(LLM, BaseModel)], lines 36-38.  [params]
    holds a reference: the object is shared with whoever built it. *)
Record LangChainInterface `{Service} : Type := mkLangChainInterface {
  credentials : option Credentials;
  model : option string;
  params : option loc
}.
Arguments mkLangChainInterface {_} _ _ _.

(** [GenerationChunk(text=..., generation_info=...)] of langchain. *)
Record GenerationChunk `{Service} : Type := mkGenerationChunk {
  text : string;
  generation_info : Metadata
}.
Arguments mkGenerationChunk {_} _ _.

(** Observable effects, in program order. *)
Inductive Event `{Service} : Type :=
| LogInfo (msg : string)
| Yielded (chunk : GenerationChunk)
| OnLlmNewToken (rm : RunManager) (token : string) (response : Response).
Arguments LogInfo {_} _.
Arguments Yielded {_} _.
Arguments OnLlmNewToken {_} _ _ _.

(** Exceptions a call can raise.  [InvalidReference] cannot happen in
    Python; it marks a store in which the adapter's reference is
    dangling. *)
Inductive Error `{Service} : Type :=
| ServiceError (e : Exn)
| IndexError
| InvalidReference.
Arguments ServiceError {_} _.
Arguments IndexError {_}.
Arguments InvalidReference {_}.

(** The store of parameters objects and the trace of effects so far. *)
Record World `{Service} : Type := mkWorld {
  heap : list (GenerateParams Knobs);
  trace : list Event
}.
Arguments mkWorld {_} _ _.

(** ** A state and exception monad *)

Definition M `{Service} (A : Type) : Type := World -> (Error + A) * World.

#[global] Instance M_ret `{Service} : MRet M :=
  fun A (a : A) w => (inr a, w).

#[global] Instance M_bind `{Service} : MBind M :=
  fun A B (f : A -> M B) (m : M A) w =>
    match m w with
    | (inl e, w') => (inl e, w')
    | (inr a, w') => f a w'
    end.

Definition raise `{Service} {A} (e : Error) : M A := fun w => (inl e, w).

Definition emit `{Service} (ev : Event) : M unit :=
  fun w => (inr tt, mkWorld (heap w) (trace w ++ [ev])).

(** [logger.info(msg)] *)
Definition logger_info `{Service} (msg : string) : M unit := emit (LogInfo msg).

(** A new object: it gets the next free reference. *)
Definition alloc `{Service} (p : GenerateParams Knobs) : M loc :=
  fun w => (inr (length (heap w)), mkWorld (heap w ++ [p]) (trace w)).

Definition load `{Service} (l : loc) : M (GenerateParams Knobs) :=
  fun w => match heap w !! l with
           | Some p => (inr p, w)
           | None => (inl InvalidReference, w)
           end.

Definition store `{Service} (l : loc) (p : GenerateParams Knobs) : M unit :=
  fun w => (inr tt, mkWorld (<[l := p]> (heap w)) (trace w)).

(** ** Python's [or] on optional lists *)

(** Truthiness of an optional list: [None] and [[]] are falsy. *)
Definition truthy (o : option (list string)) : bool :=
  match o with
  | Some (_ :: _) => true
  | _ => false
  end.

(** [a or b] *)
Definition py_or (a b : option (list string)) : option (list string) :=
  if truthy a then a else b.

(** ** Generators *)

Set Warnings "-register-all".

(** A generator parked at a [yield]: the chunk it handed out and the
    rest of its body, which runs when the consumer asks for the next
    item.  [GDone] is a body that returned. *)
Inductive Gen `{Service} : Type :=
| GDone
| GYield (chunk : GenerationChunk) (resume : World -> (Error + Gen) * World).
Arguments GDone {_}.
Arguments GYield {_} _ _.

(** [yield chunk], followed by [rest] once resumed. *)
Definition yield `{Service} (chunk : GenerationChunk) (rest : M Gen) : M Gen :=
  emit (Yielded chunk) ;; mret (GYield chunk rest).

(** What one [next()] hands to the consumer. *)
Inductive Pulled `{Service} : Type :=
| Item (chunk : GenerationChunk)
| StopIteration
| Raised (e : Error).
Arguments Item {_} _.
Arguments StopIteration {_}.
Arguments Raised {_} _.

(** [next(g)] on a generator object: [Some body] is a generator that is
    new or parked, [None] one that returned or raised. *)
Definition next `{Service} (g : option (M Gen)) (w : World)
    : Pulled * option (M Gen) * World :=
  match g with
  | None => (StopIteration, None, w)
  | Some body =>
      match body w with
      | (inl e, w') => (Raised e, None, w')
      | (inr GDone, w') => (StopIteration, None, w')
      | (inr (GYield chunk resume), w') => (Item chunk, Some resume, w')
      end
  end.

(** [n] successive calls of [next]; the consumer then drops the
    generator. *)
Fixpoint pulls `{Service} (n : nat) (g : option (M Gen)) (w : World)
    : list Pulled * World :=
  match n with
  | O => ([], w)
  | S n' =>
      match next g w with
      | (item, g', w') =>
          match pulls n' g' w' with
          | (items, w'') => (item :: items, w'')
          end
      end
  end.

(** ** The adapter's entry points *)

(** [GenerateParams()] *)
Definition default_params `{Service} : GenerateParams Knobs :=
  mkGenerateParams false None default_knobs.

(** [self.params or GenerateParams()]: the configured object itself when
    there is one (a parameters object is always truthy), a new object
    otherwise. *)
Definition params_or_default `{Service} (self : LangChainInterface) : M loc :=
  match params self with
  | Some l => mret l
  | None => alloc default_params
  end.

(** [params.stop_sequences = stop or params.stop_sequences] *)
Definition override_stop_sequences `{Service} (l : loc)
    (stop : option (list string)) : M unit :=
  cur ← load l ;
  store l (with_stop_sequences (py_or stop (stop_sequences cur)) cur).

(** [if run_manager: run_manager.on_llm_new_token(token=..., response=...)] *)
Definition notify `{Service} (run_manager : option RunManager)
    (response : Response) : M unit :=
  match run_manager with
  | Some rm => emit (OnLlmNewToken rm (generated_text response) response)
  | None => mret tt
  end.

(** Lines 119-123: the loop over the remote stream. *)
Fixpoint stream_loop `{Service} (run_manager : option RunManager)
    (responses : RemoteStream Response Exn) : M Gen :=
  match responses with
  | Ended => mret GDone
  | Failed e => raise (ServiceError e)
  | Unit response rest =>
      logger_info ("Chunk received: " +:+ generated_text response) ;;
      yield (mkGenerationChunk (generated_text response) (dict response))
            (notify run_manager response ;; stream_loop run_manager rest)
  end.

(** Lines 78-79 of [_call], repeated as lines 115-116 of [_stream]:
    [params = self.params or GenerateParams()] and
    [params.stop_sequences = stop or params.stop_sequences].  Returns the
    object and the value it then has, the effective parameters. *)
Definition effective_params `{Service} (self : LangChainInterface)
    (stop : option (list string)) : M (loc * GenerateParams Knobs) :=
  l ← params_or_default self ;
  override_stop_sequences l stop ;;
  p ← load l ;
  mret (l, p).

(** [_stream], lines 95-123.  The value is the generator's body: nothing
    of it runs before the first [next]. *)
Definition _stream `{Service} (self : LangChainInterface) (prompt : string)
    (stop : option (list string)) (run_manager : option RunManager)
    (kwargs : Kwargs) : M Gen :=
  lp ← effective_params self stop ;
  let model := mkModel (model self) lp.2 (credentials self) in
  stream_loop run_manager (generate_stream model [prompt] kwargs).

(** [for chunk in g: final_text += chunk.text], from a generator that
    has just answered its first [next]. *)
Fixpoint for_chunks `{Service} (g : Gen) (final_text : string) (w : World)
    : (Error + string) * World :=
  match g with
  | GDone => (inr final_text, w)
  | GYield chunk resume =>
      match resume w with
      | (inl e, w') => (inl e, w')
      | (inr g', w') => for_chunks g' (final_text +:+ text chunk) w'
      end
  end.

(** [model.generate(prompts, **kwargs)] *)
Definition call_generate `{Service} (m : Model Credentials Knobs)
    (prompts : list string) (kwargs : Kwargs) : M (list Response) :=
  match generate m prompts kwargs with
  | inl e => raise (ServiceError e)
  | inr results => mret results
  end.

(** [_call], lines 59-93. *)
Definition _call `{Service} (self : LangChainInterface) (prompt : string)
    (stop : option (list string)) (run_manager : option RunManager)
    (kwargs : Kwargs) : M string :=
  lp ← effective_params self stop ;
  if stream lp.2 then
    g ← _stream self prompt stop run_manager kwargs ;
    final_text ← for_chunks g "" ;
    match stop with
    | Some s => mret (Truncation.enforce_stop_tokens final_text s)
    | None => mret final_text
    end
  else
    let model := mkModel (model self) lp.2 (credentials self) in
    results ← call_generate model [prompt] kwargs ;
    match results with
    | [] => raise IndexError
    | first :: _ =>
        let text := generated_text first in
        logger_info ("Output of GENAI call: " +:+ text) ;;
        q ← load lp.1 ;
        match stop_sequences q with
        | Some s => mret (Truncation.enforce_stop_tokens text s)
        | None => mret text
        end
    end.

(** [_llm_type] *)
Definition _llm_type : string := "IBM GENAI".

(** [_identifying_params]: the model name and [self.params or
    GenerateParams()]. *)
Definition _identifying_params `{Service} (self : LangChainInterface)
    : M (option string * loc) :=
  l ← params_or_default self ;
  mret (model self, l).

(** ** Observing a call *)

(** The configured parameters: the object [self.params] refers to, or
    the defaults when none is configured. *)
Definition configured `{Service} (self : LangChainInterface) (w : World)
    : option (GenerateParams Knobs) :=
  match params self with
  | Some l => heap w !! l
  | None => Some default_params
  end.

(** The response units a remote stream delivers, and how it fails. *)
Fixpoint units {Response Exn} (s : RemoteStream Response Exn) : list Response :=
  match s with
  | Unit response rest => response :: units rest
  | _ => []
  end.

Fixpoint failure {Response Exn} (s : RemoteStream Response Exn) : option Exn :=
  match s with
  | Ended => None
  | Failed e => Some e
  | Unit _ rest => failure rest
  end.

(** The remote stream that delivers [rs] and goes on as [tail]. *)
Definition deliver {Response Exn} (rs : list Response)
    (tail : RemoteStream Response Exn) : RemoteStream Response Exn :=
  fold_right Unit tail rs.

(** [list(g)] on a generator that has answered its first [next]: the
    chunks handed out, and the exception that ended the iteration if one
    did. *)
Fixpoint drain `{Service} (g : Gen) (w : World)
    : (list GenerationChunk * option Error) * World :=
  match g with
  | GDone => (([], None), w)
  | GYield chunk resume =>
      match resume w with
      | (inl e, w') => (([chunk], Some e), w')
      | (inr g', w') =>
          match drain g' w' with
          | ((chunks, r), w'') => ((chunk :: chunks, r), w'')
          end
      end
  end.

(** [list(body)] on a new generator. *)
Definition collect `{Service} (body : M Gen) (w : World)
    : (list GenerationChunk * option Error) * World :=
  match body w with
  | (inl e, w') => (([], Some e), w')
  | (inr g, w') => drain g w'
  end.

(** The texts of the chunks, concatenated in order. *)
Definition concat_texts `{Service} (chunks : list GenerationChunk) : string :=
  fold_left (fun acc c => acc +:+ text c) chunks "".

(** The configured parameters [p] with the caller's [stop] taken into
    account the way line 79 does it. *)
Definition effective {Knobs} (stop : option (list string))
    (p : GenerateParams Knobs) : GenerateParams Knobs :=
  with_stop_sequences (py_or stop (stop_sequences p)) p.

(** The specification's wording of the same step: [stopSequences]
    replaced by [stop] if [stop] is present, else left as configured. *)
Definition replaced_when_present {Knobs} (stop : option (list string))
    (p : GenerateParams Knobs) : GenerateParams Knobs :=
  match stop with
  | Some s => with_stop_sequences (Some s) p
  | None => p
  end.

(** The object a call works on: the configured one, or the one it
    allocates. *)
Definition resolved `{Service} (self : LangChainInterface) (w : World) : loc :=
  match params self with
  | Some l => l
  | None => length (heap w)
  end.

(** The world with [evs] appended to its trace. *)
Definition add_trace `{Service} (w : World) (evs : list Event) : World :=
  mkWorld (heap w) (trace w ++ evs).

(** The store once lines 78-79 have run, [p] being the configured
    parameters. *)
Definition world_after `{Service} (self : LangChainInterface)
    (stop : option (list string)) (w : World) (p : GenerateParams Knobs) : World :=
  match params self with
  | Some l => mkWorld (<[l := effective stop p]> (heap w)) (trace w)
  | None => mkWorld (heap w ++ [effective stop p]) (trace w)
  end.

(** The chunk line 121 builds from a response unit. *)
Definition chunk_of `{Service} (response : Response) : GenerationChunk :=
  mkGenerationChunk (generated_text response) (dict response).

(** The events of one response unit: up to the [yield], and after it. *)
Definition yield_events `{Service} (response : Response) : list Event :=
  [LogInfo ("Chunk received: " +:+ generated_text response);
   Yielded (chunk_of response)].

Definition notify_events `{Service} (run_manager : option RunManager)
    (response : Response) : list Event :=
  match run_manager with
  | Some rm => [OnLlmNewToken rm (generated_text response) response]
  | None => []
  end.

(** The trace of a generator driven over the units [rs] and resumed
    after each of them. *)
Definition consumed_events `{Service} (run_manager : option RunManager)
    (rs : list Response) : list Event :=
  flat_map (fun r => yield_events r ++ notify_events run_manager r)%list rs.

(** The client handle both entry points build. *)
Definition handle `{Service} (self : LangChainInterface)
    (stop : option (list string)) (p : GenerateParams Knobs)
    : Model Credentials Knobs :=
  mkModel (model self) (effective stop p) (credentials self).

(** Stop-sequence truncation as line 84-85 applies it: only when the
    caller passed a stop list. *)
Definition truncate_if_given (stop : option (list string)) (final_text : string)
    : string :=
  match stop with
  | Some s => Truncation.enforce_stop_tokens final_text s
  | None => final_text
  end.

(** ** Loading the module: lines 2-16 *)

Module Prelude.

Inductive Exception : Type :=
| ModuleNotFoundError (name : string)
| ImportError (msg : string).

(** [str(exc)] *)
Definition message (exc : Exception) : string :=
  match exc with
  | ModuleNotFoundError name => "No module named '" +:+ name +:+ "'"
  | ImportError msg => msg
  end.

(** The modules that can be imported, each as its dotted path. *)
Definition Env : Type := list (list string).

Definition dotted (path : list string) : string := String.concat "." path.

(** Importing [a.b.c] imports [a], then [a.b], then [a.b.c]; the first
    one that is missing raises. *)
Fixpoint import_from (env : Env) (parents rest : list string)
    : Exception + unit :=
  match rest with
  | [] => inr tt
  | name :: rest' =>
      let path := (parents ++ [name])%list in
      if bool_decide (path ∈ env) then import_from env path rest'
      else inl (ModuleNotFoundError (dotted path))
  end.

(** [from path import ...] *)
Definition from_import (env : Env) (path : list string) : Exception + unit :=
  import_from env [] path.

Definition seq (a b : Exception + unit) : Exception + unit :=
  match a with
  | inl e => inl e
  | inr _ => b
  end.

(** [try: body except ImportError: handler].  [ModuleNotFoundError] is a
    subclass of [ImportError], so both are caught. *)
Definition try_except_ImportError (body handler : Exception + unit)
    : Exception + unit :=
  match body with
  | inl _ => handler
  | inr _ => inr tt
  end.

Definition install_hint : string :=
  "Could not import langchain: Please install ibm-generative-ai[langchain] extension.".

(** The import statements of llm.py, in order. *)
Definition load_module (env : Env) : Exception + unit :=
  seq (from_import env ["logging"])
  (seq (from_import env ["typing"])
  (seq (from_import env ["langchain"; "callbacks"; "manager"])
  (seq (from_import env ["langchain"; "schema"; "output"])
  (seq (from_import env ["pydantic"])
  (seq (try_except_ImportError
          (seq (from_import env ["langchain"; "llms"; "base"])
               (from_import env ["langchain"; "llms"; "utils"]))
          (inl (ImportError install_hint)))
  (seq (from_import env ["genai"])
       (from_import env ["genai"; "schemas"]))))))).

(** An installation without the langchain extension. *)
Definition env_without_langchain : Env :=
  [["logging"]; ["typing"]; ["pydantic"]; ["genai"]; ["genai"; "schemas"]].

End Prelude.

(** ** Constructing the adapter *)

(** A keyword argument's value. *)
Inductive Value `{Service} : Type :=
| VNone
| VStr (s : string)
| VCredentials (c : Credentials)
| VParams (l : loc)
| VOther.
Arguments VNone {_}.
Arguments VStr {_} _.
Arguments VCredentials {_} _.
Arguments VParams {_} _.
Arguments VOther {_}.

Inductive ValidationError : Type :=
| ExtraForbidden (names : list string)
| WrongType (name : string).

(** The fields the class body declares, lines 36-38. *)
Definition declared_fields : list string := ["credentials"; "model"; "params"].

(** The keyword arguments that name no declared field. *)
Definition extra_fields `{Service} (kwargs : gmap string Value) : list string :=
  filter (fun name => name ∉ declared_fields) (map_to_list kwargs).*1.

Definition validate_credentials `{Service} (v : option Value)
    : ValidationError + option Credentials :=
  match v with
  | None | Some VNone => inr None
  | Some (VCredentials c) => inr (Some c)
  | Some _ => inl (WrongType "credentials")
  end.

Definition validate_model `{Service} (v : option Value)
    : ValidationError + option string :=
  match v with
  | None | Some VNone => inr None
  | Some (VStr s) => inr (Some s)
  | Some _ => inl (WrongType "model")
  end.

Definition validate_params `{Service} (v : option Value)
    : ValidationError + option loc :=
  match v with
  | None | Some VNone => inr None
  | Some (VParams l) => inr (Some l)
  | Some _ => inl (WrongType "params")
  end.

(** Modelled from the spec: the constructor of [LangChainInterface],
    called with keyword arguments, is generated by pydantic's [BaseModel] from the declared fields and
    [Config.extra = Extra.forbid] (lines 36-43); pydantic is not part of
    the sources, and neither are the fields the [LLM] base class may add.
    The specification: unexpected or extra configuration fields are
    rejected eagerly at construction time with a validation error.  The
    constructor is a pure function: it performs no remote call. *)
Definition init `{Service} (kwargs : gmap string Value)
    : ValidationError + LangChainInterface :=
  match extra_fields kwargs with
  | [] =>
      match validate_credentials (kwargs !! "credentials") with
      | inl e => inl e
      | inr c =>
          match validate_model (kwargs !! "model") with
          | inl e => inl e
          | inr m =>
              match validate_params (kwargs !! "params") with
              | inl e => inl e
              | inr p => inr (mkLangChainInterface c m p)
              end
          end
      end
  | names => inl (ExtraForbidden names)
  end.

(** ** Scripted remote services for the concrete scenarios *)

(** A remote service whose batch call answers [batch] and whose stream
    delivers [s], whatever the request; response units are their text. *)
Definition scripted (batch : string + list string)
    (s : RemoteStream string string) : Service :=
  {| Credentials := string;
     Knobs := unit;
     default_knobs := tt;
     Kwargs := unit;
     Response := string;
     Metadata := list (string * string);
     Exn := string;
     RunManager := unit;
     generated_text := fun r => r;
     dict := fun r => [("generated_text", r)];
     generate := fun _ _ _ => batch;
     generate_stream := fun _ _ _ => s |}.

(** The scenario of the specification: the stream delivers "Hello, "
    and "world!", the batch call answers "Hello, world!". *)
Definition hello_service : Service :=
  scripted (inr ["Hello, world!"]) (Unit "Hello, " (Unit "world!" Ended)).

(** A stream that fails with a transport error after one unit. *)
Definition failing_service : Service :=
  scripted (inl "transport error") (Unit "Hello, " (Failed "transport error")).

(** The keyword arguments of the docstring example, lines 75 and 111. *)
Definition docstring_kwargs : gmap string (@Value hello_service) :=
  <["model_id" := @VStr hello_service "google/flan-ul2"]> ∅.

(** An adapter configured with the parameters object at reference 0. *)
Definition adapter_at_0 (S : Service) : @LangChainInterface S :=
  @mkLangChainInterface S None (Some "google/flan-ul2") (Some 0).

(** A store holding one parameters object and an empty trace. *)
Definition one_object (S : Service) (p : GenerateParams (@Knobs S)) : @World S :=
  @mkWorld S [p] [].

(** ** The modules llm.py needs *)




(** * Properties *)

(** ** Truncation finds the earliest stop sequence *)

Module TruncationFacts.
Import Truncation.

Lemma append_cons (a : ascii) (s t : string) :
  String a s +:+ t = String a (s +:+ t).
Proof. reflexivity. Qed.

Lemma append_nil (t : string) : "" +:+ t = t.
Proof. reflexivity. Qed.

Lemma prefix_app (s t : string) :
  String.prefix s t = true <-> exists post, t = s +:+ post.
Proof.
  revert t. induction s as [|a s IH]; intros t.
  - split; [intros _; exists t; reflexivity | intros _; by destruct t].
  - destruct t as [|b t].
    + split; [done | intros [post Hp]; discriminate].
    + cbn. destruct (Ascii.ascii_dec a b) as [->|Hne].
      * rewrite IH. split; intros [post Hp]; exists post;
          rewrite append_cons in *; congruence.
      * split; [done | intros [post Hp]; rewrite append_cons in Hp; congruence].
Qed.

Lemma occurs_at_0 (s T : string) :
  occurs_at s T 0 <-> String.prefix s T = true.
Proof.
  rewrite prefix_app. unfold occurs_at. split.
  - intros (pre & post & -> & Hlen). destruct pre; [|done]. by exists post.
  - intros [post ->]. by exists "", post.
Qed.

Lemma occurs_at_S (s : string) (c : ascii) (T : string) (i : nat) :
  occurs_at s (String c T) (S i) <-> occurs_at s T i.
Proof.
  unfold occurs_at. split.
  - intros (pre & post & Heq & Hlen). destruct pre as [|a pre]; [done|].
    rewrite append_cons in Heq. cbn in Hlen. exists pre, post.
    split; [congruence | lia].
  - intros (pre & post & -> & Hlen). exists (String c pre), post.
    rewrite append_cons. cbn. by rewrite Hlen.
Qed.

Lemma starts_with_any_true (stop : list string) (T : string) :
  starts_with_any stop T = true <-> exists s, s ∈ stop /\ occurs_at s T 0.
Proof.
  unfold starts_with_any. rewrite existsb_exists. split.
  - intros (s & Hin & Hp). exists s.
    split; [by apply list_elem_of_In | by apply occurs_at_0].
  - intros (s & Hin & Hp). exists s.
    split; [by apply list_elem_of_In | by apply occurs_at_0].
Qed.

Lemma starts_with_any_false (stop : list string) (T : string) :
  starts_with_any stop T = false <-> forall s, s ∈ stop -> ~ occurs_at s T 0.
Proof.
  rewrite <- not_true_iff_false, starts_with_any_true. split.
  - intros Hno s Hin Hs. apply Hno. by exists s.
  - intros Hno (s & Hin & Hs). by apply (Hno s).
Qed.

Lemma enforce_cut (stop : list string) (T : string) (i : nat) :
  (exists s, s ∈ stop /\ occurs_at s T i) ->
  (forall j s, s ∈ stop -> occurs_at s T j -> i <= j) ->
  enforce_stop_tokens T stop = slice_to T i.
Proof.
  unfold slice_to. revert i. induction T as [|c T IH]; intros i Hocc Hmin.
  - simpl. destruct (starts_with_any stop ""); by destruct i.
  - simpl. destruct (starts_with_any stop (String c T)) eqn:E.
    + apply starts_with_any_true in E as (s & Hin & H0).
      specialize (Hmin 0 s Hin H0). by replace i with 0 by lia.
    + rewrite starts_with_any_false in E.
      destruct i as [|i]; [destruct Hocc as (s & Hin & H0); by destruct (E s Hin)|].
      f_equal. apply IH.
      * destruct Hocc as (s & Hin & Hs). exists s. by rewrite <- (occurs_at_S s c).
      * intros j s Hin Hj. apply (occurs_at_S s c) in Hj.
        specialize (Hmin _ _ Hin Hj). lia.
Qed.

Lemma enforce_absent (stop : list string) (T : string) :
  (forall s i, s ∈ stop -> ~ occurs_at s T i) ->
  enforce_stop_tokens T stop = T.
Proof.
  induction T as [|c T IH]; intros Hno.
  - simpl. by destruct (starts_with_any stop "").
  - simpl. destruct (starts_with_any stop (String c T)) eqn:E.
    + apply starts_with_any_true in E as (s & Hin & H0). by destruct (Hno s 0 Hin).
    + f_equal. apply IH. intros s i Hin Hi.
      apply (Hno s (S i) Hin). by apply occurs_at_S.
Qed.

Lemma enforce_nil (T : string) : enforce_stop_tokens T [] = T.
Proof. apply enforce_absent. intros s i Hin. by apply elem_of_nil in Hin. Qed.

(** C2: for every text [T] and non-empty stop list [S], if some member
    of [S] occurs in [T] and [i] is the smallest start offset of any
    occurrence of any member, truncation returns [T[0:i]]; if no member
    occurs in [T], truncation returns [T] unchanged. *)
Theorem truncation_cuts_at_earliest_stop (T : string) (S : list string) :
  S <> [] ->
  (forall i,
      (exists s, s ∈ S /\ occurs_at s T i) ->
      (forall j s, s ∈ S -> occurs_at s T j -> i <= j) ->
      enforce_stop_tokens T S = slice_to T i)
  /\ ((forall s i, s ∈ S -> ~ occurs_at s T i) -> enforce_stop_tokens T S = T).
Proof.
  intros _. split.
  - intros i. apply enforce_cut.
  - apply enforce_absent.
Qed.

Lemma occurs_world_at_7 : occurs_at "world" "Hello, world!" 7.
Proof. by exists "Hello, ", "!". Qed.

Lemma world_not_before_7 (j : nat) : occurs_at "world" "Hello, world!" j -> 7 <= j.
Proof.
  intros (pre & post & Heq & <-).
  do 7 (destruct pre as [|? pre]; [simpl in Heq; discriminate Heq|]).
  simpl. lia.
Qed.

Lemma truncation_cuts_at_earliest_stop_witness :
  ["world"] <> [] /\ enforce_stop_tokens "Hello, world!" ["world"] = "Hello, ".
Proof.
  split; [done|].
  apply (proj1 (truncation_cuts_at_earliest_stop "Hello, world!" ["world"]
                  ltac:(done)) 7).
  - exists "world". split; [apply list_elem_of_here | apply occurs_world_at_7].
  - intros j s Hin Hj. apply list_elem_of_singleton in Hin as ->.
    by apply world_not_before_7.
Defined.

End TruncationFacts.

(** ** Running the two entry points *)

Section AdapterFacts.
Context `{Service}.

Ltac run := unfold mbind, M_bind, mret, M_ret; cbn.

Lemma add_trace_nil (w : World) : add_trace w [] = w.
Proof. destruct w. unfold add_trace. cbn. by rewrite app_nil_r. Qed.

Lemma add_trace_app (w : World) (evs evs' : list Event) :
  add_trace (add_trace w evs) evs' = add_trace w (evs ++ evs')%list.
Proof. unfold add_trace. cbn. by rewrite app_assoc. Qed.

Lemma py_or_idem (a b : option (list string)) : py_or a (py_or a b) = py_or a b.
Proof. unfold py_or. by destruct (truthy a). Qed.

Lemma effective_idem (stop : option (list string)) (p : GenerateParams Knobs) :
  effective stop (effective stop p) = effective stop p.
Proof. unfold effective, with_stop_sequences. cbn. by rewrite py_or_idem. Qed.

Lemma stream_effective (stop : option (list string)) (p : GenerateParams Knobs) :
  stream (effective stop p) = stream p.
Proof. reflexivity. Qed.

Lemma knobs_effective (stop : option (list string)) (p : GenerateParams Knobs) :
  knobs (effective stop p) = knobs p.
Proof. reflexivity. Qed.

(** Lines 78-79: the value computed and the store left behind. *)
Lemma effective_params_run (self : LangChainInterface)
    (stop : option (list string)) (w : World) (p : GenerateParams Knobs) :
  configured self w = Some p ->
  effective_params self stop w
  = (inr (resolved self w, effective stop p), world_after self stop w p).
Proof.
  unfold configured, effective_params, params_or_default, resolved, world_after,
    override_stop_sequences.
  destruct (params self) as [l|]; intros Hp.
  - run. unfold load. rewrite Hp. cbn.
    rewrite list_lookup_insert_eq; [done|]. by eapply lookup_lt_Some.
  - injection Hp as <-. run. unfold load, alloc. cbn.
    rewrite lookup_app_r, Nat.sub_diag by done. cbn.
    rewrite insert_app_r_alt, Nat.sub_diag by done. cbn.
    by rewrite lookup_app_r, Nat.sub_diag by done.
Qed.

(** After lines 78-79 the configured object holds the effective
    parameters. *)
Lemma configured_world_after (self : LangChainInterface)
    (stop : option (list string)) (w : World) (p : GenerateParams Knobs) :
  configured self w = Some p ->
  is_Some (params self) ->
  configured self (world_after self stop w p) = Some (effective stop p).
Proof.
  unfold configured, world_after. intros Hp [l Hl]. rewrite Hl in *. cbn.
  apply list_lookup_insert_eq. by eapply lookup_lt_Some.
Qed.

Lemma world_after_again (self : LangChainInterface)
    (stop : option (list string)) (w : World) (p : GenerateParams Knobs) :
  is_Some (params self) ->
  world_after self stop (world_after self stop w p) (effective stop p)
  = world_after self stop w p.
Proof.
  unfold world_after. intros [l Hl]. rewrite Hl. cbn.
  by rewrite effective_idem, list_insert_insert_eq.
Qed.

Lemma resolved_world_after (self : LangChainInterface)
    (stop : option (list string)) (w : World) (p : GenerateParams Knobs) :
  is_Some (params self) ->
  resolved self (world_after self stop w p) = resolved self w.
Proof. unfold resolved. by intros [l ->]. Qed.

(** The first [next] on [_stream] runs lines 115-118 and enters the
    loop over the remote stream. *)
Lemma stream_run (self : LangChainInterface) (prompt : string)
    (stop : option (list string)) (run_manager : option RunManager)
    (kwargs : Kwargs) (w : World) (p : GenerateParams Knobs) :
  configured self w = Some p ->
  _stream self prompt stop run_manager kwargs w
  = stream_loop run_manager
      (generate_stream (handle self stop p) [prompt] kwargs)
      (world_after self stop w p).
Proof.
  intros Hp. unfold _stream. unfold mbind at 1, M_bind at 1.
  by rewrite (effective_params_run _ _ _ _ Hp).
Qed.

(** *** The loop over the remote stream *)

Lemma notify_run (run_manager : option RunManager) (r : Response) (w : World) :
  notify run_manager r w = (inr tt, add_trace w (notify_events run_manager r)).
Proof.
  unfold notify, notify_events. destruct run_manager; [done|].
  run. by rewrite add_trace_nil.
Qed.

Lemma stream_loop_unit (run_manager : option RunManager) (r : Response)
    (rest : RemoteStream Response Exn) (w : World) :
  stream_loop run_manager (Unit r rest) w
  = (inr (GYield (chunk_of r)
            (notify run_manager r ;; stream_loop run_manager rest)),
     add_trace w (yield_events r)).
Proof.
  cbn. unfold logger_info, yield, emit, add_trace, yield_events. run.
  by rewrite <- app_assoc.
Qed.

Lemma resume_run (run_manager : option RunManager) (r : Response)
    (rest : RemoteStream Response Exn) (w : World) :
  (notify run_manager r ;; stream_loop run_manager rest) w
  = stream_loop run_manager rest (add_trace w (notify_events run_manager r)).
Proof. unfold mbind, M_bind. by rewrite notify_run. Qed.

Lemma collect_ext (body body' : M Gen) (w w' : World) :
  body w = body' w' -> collect body w = collect body' w'.
Proof. unfold collect. by intros ->. Qed.

Lemma pulls_ext (n : nat) (body body' : M Gen) (w w' : World) :
  body w = body' w' ->
  pulls (S n) (Some body) w = pulls (S n) (Some body') w'.
Proof. cbn. by intros ->. Qed.

(** [list(...)] over the loop: every unit becomes a chunk, and the
    stream's failure ends the iteration. *)
Lemma collect_stream_loop (run_manager : option RunManager)
    (rest : RemoteStream Response Exn) (w : World) :
  collect (stream_loop run_manager rest) w
  = ((map chunk_of (units rest), ServiceError <$> failure rest),
     add_trace w (consumed_events run_manager (units rest))).
Proof.
  revert w. induction rest as [|e|r rest IH]; intros w.
  - unfold collect. cbn. run. by rewrite add_trace_nil.
  - unfold collect. cbn. unfold raise. by rewrite add_trace_nil.
  - unfold collect. rewrite stream_loop_unit. cbn [drain].
    rewrite resume_run.
    specialize (IH (add_trace (add_trace w (yield_events r))
                      (notify_events run_manager r))).
    unfold collect in IH.
    destruct (stream_loop run_manager rest _) as [[err|g] w'].
    + injection IH as Hc He ->. cbn [units failure map consumed_events flat_map].
      rewrite <- Hc, <- He. by rewrite !add_trace_app, <- !app_assoc.
    + rewrite IH. cbn [units failure map consumed_events flat_map].
      by rewrite !add_trace_app, <- !app_assoc.
Qed.

(** The [for] loop of line 82-83 over the loop of [_stream]. *)
Lemma for_chunks_stream_loop (run_manager : option RunManager)
    (rest : RemoteStream Response Exn) (acc : string) (w : World) :
  (g ← stream_loop run_manager rest ; for_chunks g acc) w
  = (match failure rest with
     | Some e => inl (ServiceError e)
     | None =>
         inr (fold_left (fun a c => a +:+ text c) (map chunk_of (units rest)) acc)
     end,
     add_trace w (consumed_events run_manager (units rest))).
Proof.
  revert acc w. induction rest as [|e|r rest IH]; intros acc w.
  - run. by rewrite add_trace_nil.
  - run. unfold raise. by rewrite add_trace_nil.
  - unfold mbind, M_bind. rewrite stream_loop_unit. cbn [for_chunks].
    rewrite resume_run.
    specialize (IH (acc +:+ text (chunk_of r))
                   (add_trace (add_trace w (yield_events r))
                      (notify_events run_manager r))).
    unfold mbind, M_bind in IH.
    destruct (stream_loop run_manager rest _) as [[err|g] w'].
    + rewrite IH. cbn [units failure map fold_left consumed_events flat_map].
      by rewrite !add_trace_app, <- !app_assoc.
    + rewrite IH. cbn [units failure map fold_left consumed_events flat_map].
      by rewrite !add_trace_app, <- !app_assoc.
Qed.

(** *** Pulling items one at a time *)

Lemma pulls_S (n : nat) (g : option (M Gen)) (w : World) :
  pulls (S n) g w
  = match next g w with
    | (item, g', w') =>
        match pulls n g' w' with
        | (items, w'') => (item :: items, w'')
        end
    end.
Proof. reflexivity. Qed.

Lemma next_unit (run_manager : option RunManager) (r : Response)
    (rest : RemoteStream Response Exn) (w : World) :
  next (Some (stream_loop run_manager (Unit r rest))) w
  = (Item (chunk_of r),
     Some (notify run_manager r ;; stream_loop run_manager rest),
     add_trace w (yield_events r)).
Proof. unfold next. by rewrite stream_loop_unit. Qed.

(** Pulling as many items as units were delivered, plus one: the last
    unit has been yielded and its notification is still pending. *)
Lemma pulls_delivered (run_manager : option RunManager) (rs : list Response)
    (r : Response) (tail : RemoteStream Response Exn) (w : World) :
  pulls (S (length rs)) (Some (stream_loop run_manager (deliver (rs ++ [r]) tail))) w
  = (map (fun x => Item (chunk_of x)) (rs ++ [r]),
     add_trace w (consumed_events run_manager rs ++ yield_events r)).
Proof.
  revert w. induction rs as [|r0 rs IH]; intros w.
  - cbn [length app deliver fold_right]. rewrite pulls_S, next_unit. reflexivity.
  - cbn [length app deliver fold_right]. rewrite pulls_S, next_unit.
    rewrite (pulls_ext _ _ _ _ _ (resume_run _ _ _ _)).
    fold (deliver (rs ++ [r]) tail). rewrite IH.
    cbn [map consumed_events flat_map].
    by rewrite !add_trace_app, <- !app_assoc.
Qed.

(** A stream that fails after [rs]: the pull after the last chunk
    raises. *)
Lemma pulls_failed (run_manager : option RunManager) (rs : list Response)
    (e : Exn) (w : World) :
  pulls (S (length rs)) (Some (stream_loop run_manager (deliver rs (Failed e)))) w
  = ((map (fun x => Item (chunk_of x)) rs ++ [Raised (ServiceError e)])%list,
     add_trace w (consumed_events run_manager rs)).
Proof.
  revert w. induction rs as [|r0 rs IH]; intros w.
  - cbn. unfold raise. by rewrite add_trace_nil.
  - cbn [length deliver fold_right]. rewrite pulls_S, next_unit.
    rewrite (pulls_ext _ _ _ _ _ (resume_run _ _ _ _)).
    fold (deliver rs (Failed e)). rewrite IH.
    cbn [map consumed_events flat_map app].
    by rewrite !add_trace_app, <- !app_assoc.
Qed.

Lemma units_deliver (rs : list Response) (tail : RemoteStream Response Exn) :
  units (deliver rs tail) = (rs ++ units tail)%list.
Proof. induction rs as [|r rs IH]; [done|]. cbn. by rewrite <- IH. Qed.

Lemma failure_deliver (rs : list Response) (tail : RemoteStream Response Exn) :
  failure (deliver rs tail) = failure tail.
Proof. induction rs as [|r rs IH]; [done|]. by cbn. Qed.

(** *** [_call] on its two paths *)

Lemma load_resolved (self : LangChainInterface) (stop : option (list string))
    (w : World) (p : GenerateParams Knobs) :
  configured self w = Some p ->
  heap (world_after self stop w p) !! resolved self w = Some (effective stop p).
Proof.
  unfold configured, world_after, resolved.
  destruct (params self) as [l|]; intros Hp; cbn.
  - apply list_lookup_insert_eq. by eapply lookup_lt_Some.
  - by rewrite lookup_app_r, Nat.sub_diag.
Qed.

Lemma streaming_needs_params (self : LangChainInterface) (w : World)
    (p : GenerateParams Knobs) :
  configured self w = Some p -> stream p = true -> is_Some (params self).
Proof.
  unfold configured. destruct (params self); [by eauto|].
  intros [= <-]. done.
Qed.

(** The streaming path, lines 80-86. *)
Lemma call_streaming_run (self : LangChainInterface) (prompt : string)
    (stop : option (list string)) (run_manager : option RunManager)
    (kwargs : Kwargs) (w : World) (p : GenerateParams Knobs) :
  configured self w = Some p ->
  stream p = true ->
  let rest := generate_stream (handle self stop p) [prompt] kwargs in
  _call self prompt stop run_manager kwargs w
  = (match failure rest with
     | Some e => inl (ServiceError e)
     | None => inr (truncate_if_given stop (concat_texts (map chunk_of (units rest))))
     end,
     add_trace (world_after self stop w p)
       (consumed_events run_manager (units rest))).
Proof.
  intros Hp Hs rest. pose proof (streaming_needs_params _ _ _ Hp Hs) as Hl.
  unfold _call. unfold mbind at 1, M_bind at 1.
  rewrite (effective_params_run _ _ _ _ Hp). cbn [snd fst].
  rewrite stream_effective, Hs.
  pose proof (for_chunks_stream_loop run_manager rest "" (world_after self stop w p))
    as Hloop.
  unfold mbind at 1, M_bind at 1.
  rewrite (stream_run _ _ _ _ _ _ _ (configured_world_after _ stop _ _ Hp Hl)).
  rewrite world_after_again by done.
  unfold handle at 1. rewrite effective_idem. fold (handle self stop p). fold rest.
  unfold mbind at 1, M_bind at 1 in Hloop.
  destruct (stream_loop run_manager rest _) as [[err|g] w'].
  - rewrite Hloop. by destruct (failure rest).
  - unfold mbind at 1, M_bind at 1. rewrite Hloop.
    destruct (failure rest); [done|]. unfold truncate_if_given, concat_texts.
    by destruct stop.
Qed.

(** The batch path, lines 88-93. *)
Lemma call_batch_run (self : LangChainInterface) (prompt : string)
    (stop : option (list string)) (run_manager : option RunManager)
    (kwargs : Kwargs) (w : World) (p : GenerateParams Knobs) :
  configured self w = Some p ->
  stream p = false ->
  _call self prompt stop run_manager kwargs w
  = match generate (handle self stop p) [prompt] kwargs with
    | inl e => (inl (ServiceError e), world_after self stop w p)
    | inr [] => (inl IndexError, world_after self stop w p)
    | inr (first :: _) =>
        (inr (match stop_sequences (effective stop p) with
              | Some s => Truncation.enforce_stop_tokens (generated_text first) s
              | None => generated_text first
              end),
         add_trace (world_after self stop w p)
           [LogInfo ("Output of GENAI call: " +:+ generated_text first)])
    end.
Proof.
  intros Hp Hs. unfold _call. unfold mbind at 1, M_bind at 1.
  rewrite (effective_params_run _ _ _ _ Hp). cbn [snd fst].
  rewrite stream_effective, Hs. fold (handle self stop p).
  unfold mbind at 1, M_bind at 1. unfold call_generate.
  destruct (generate (handle self stop p) [prompt] kwargs) as [e|[|first others]];
    [done..|].
  run. unfold load, logger_info, emit. cbn [heap].
  rewrite (load_resolved _ stop _ _ Hp). cbn.
  by destruct (py_or stop (stop_sequences p)).
Qed.

(** ** The effective parameters *)

Lemma with_stop_sequences_same (p : GenerateParams Knobs) :
  with_stop_sequences (stop_sequences p) p = p.
Proof. by destruct p. Qed.

(** C5, as the code has it: the effective parameters of a call are the
    configured parameters (the defaults when none are configured) with
    the stop sequences replaced by the caller's stop list whenever that
    list is present and non-empty; when the stop argument is absent or
    is the empty list, the configured stop sequences are kept. *)
Theorem effective_params_override (self : LangChainInterface)
    (stop : option (list string)) (w : World) (p : GenerateParams Knobs) :
  configured self w = Some p ->
  (effective_params self stop w).1
  = inr (resolved self w,
         match stop with
         | Some (s :: ss) => with_stop_sequences (Some (s :: ss)) p
         | Some [] | None => p
         end).
Proof.
  intros Hp. rewrite (effective_params_run _ _ _ _ Hp). cbn [fst].
  do 2 f_equal. unfold effective, py_or.
  destruct stop as [[|s ss]|]; cbn; [|done|]; apply with_stop_sequences_same.
Qed.

(** ** [_call] *)

(** C4: on the batch path, when the effective stop-sequence list is
    absent or empty, [_call] returns the generated text of the first
    result exactly as the remote service produced it. *)
Theorem call_batch_without_stop_is_raw (self : LangChainInterface)
    (prompt : string) (stop : option (list string))
    (run_manager : option RunManager) (kwargs : Kwargs) (w : World)
    (p : GenerateParams Knobs) (first : Response) (others : list Response) :
  configured self w = Some p ->
  stream (effective stop p) = false ->
  stop_sequences (effective stop p) = None
    \/ stop_sequences (effective stop p) = Some [] ->
  generate (handle self stop p) [prompt] kwargs = inr (first :: others) ->
  (_call self prompt stop run_manager kwargs w).1 = inr (generated_text first).
Proof.
  intros Hp Hs Hstop Hgen. rewrite stream_effective in Hs.
  rewrite (call_batch_run _ _ _ _ _ _ _ Hp Hs), Hgen. cbn [fst].
  destruct Hstop as [-> | ->]; [done|].
  by rewrite TruncationFacts.enforce_nil.
Qed.

(** ** [_stream] *)

(** C6: [_stream] never truncates.  Whatever the stop list, the chunks
    it yields are, in arrival order, the response units of the remote
    stream, each with the unit's generated text as its text and the
    unit's [dict()] as its metadata. *)
Theorem stream_yields_raw_units (self : LangChainInterface) (prompt : string)
    (stop : option (list string)) (run_manager : option RunManager)
    (kwargs : Kwargs) (w : World) (p : GenerateParams Knobs) :
  configured self w = Some p ->
  (collect (_stream self prompt stop run_manager kwargs) w).1.1
  = map (fun response =>
           mkGenerationChunk (generated_text response) (dict response))
        (units (generate_stream (handle self stop p) [prompt] kwargs)).
Proof.
  intros Hp.
  rewrite (collect_ext _ _ _ _ (stream_run _ prompt _ run_manager kwargs _ _ Hp)).
  by rewrite collect_stream_loop.
Qed.

(** C8: when the remote stream delivers the units [rs] and then fails
    with [e], the generator yields the chunks of [rs] in order and the
    next pull raises [e]; [_call] in streaming mode raises [e] and
    returns no text. *)
Theorem stream_failure_propagates (self : LangChainInterface) (prompt : string)
    (stop : option (list string)) (run_manager : option RunManager)
    (kwargs : Kwargs) (w : World) (p : GenerateParams Knobs)
    (rs : list Response) (e : Exn) :
  configured self w = Some p ->
  generate_stream (handle self stop p) [prompt] kwargs = deliver rs (Failed e) ->
  (pulls (S (length rs)) (Some (_stream self prompt stop run_manager kwargs)) w).1
  = (map (fun r => Item (chunk_of r)) rs ++ [Raised (ServiceError e)])%list
  /\ (stream (effective stop p) = true ->
      (_call self prompt stop run_manager kwargs w).1 = inl (ServiceError e)).
Proof.
  intros Hp Hrest. split.
  - rewrite (pulls_ext _ _ _ _ _ (stream_run _ prompt _ run_manager kwargs _ _ Hp)).
    by rewrite Hrest, pulls_failed.
  - rewrite stream_effective. intros Hs.
    rewrite (call_streaming_run _ _ _ _ _ _ _ Hp Hs). cbn [fst].
    by rewrite Hrest, failure_deliver.
Qed.

(** C10: with a run manager, the notification for a chunk runs when the
    consumer asks for the following item.  A consumer that pulls the
    chunks of [rs] and of [r] and then abandons the generator has seen,
    for every unit of [rs], the log record, the chunk and then exactly
    one notification with that unit's text and the unit itself, before
    the next chunk; for the last chunk [r] no notification has run. *)
Theorem notification_runs_on_next_pull (self : LangChainInterface)
    (prompt : string) (stop : option (list string)) (rm : RunManager)
    (kwargs : Kwargs) (w : World) (p : GenerateParams Knobs)
    (rs : list Response) (r : Response) (tail : RemoteStream Response Exn) :
  configured self w = Some p ->
  generate_stream (handle self stop p) [prompt] kwargs = deliver (rs ++ [r]) tail ->
  pulls (S (length rs)) (Some (_stream self prompt stop (Some rm) kwargs)) w
  = (map (fun x => Item (chunk_of x)) (rs ++ [r]),
     add_trace (world_after self stop w p)
       (flat_map (fun x =>
                    [LogInfo ("Chunk received: " +:+ generated_text x);
                     Yielded (chunk_of x);
                     OnLlmNewToken rm (generated_text x) x]) rs
        ++ [LogInfo ("Chunk received: " +:+ generated_text r);
            Yielded (chunk_of r)])).
Proof.
  intros Hp Hrest.
  rewrite (pulls_ext _ _ _ _ _ (stream_run _ prompt _ (Some rm) kwargs _ _ Hp)).
  by rewrite Hrest, pulls_delivered.
Qed.

(** After either entry point has run lines 78-79 (115-116), the store
    holds the effective parameters in the object the adapter refers
    to. *)
Lemma call_leaves_effective_params (self : LangChainInterface)
    (prompt : string) (stop : option (list string))
    (run_manager : option RunManager) (kwargs : Kwargs) (w : World)
    (p : GenerateParams Knobs) :
  configured self w = Some p ->
  is_Some (params self) ->
  configured self (_call self prompt stop run_manager kwargs w).2
  = Some (effective stop p).
Proof.
  intros Hp Hl.
  pose proof (configured_world_after _ stop _ _ Hp Hl) as Hafter.
  destruct (stream p) eqn:Hs.
  - by rewrite (call_streaming_run _ _ _ _ _ _ _ Hp Hs).
  - rewrite (call_batch_run _ _ _ _ _ _ _ Hp Hs).
    by destruct (generate _ _ _) as [e|[|first others]].
Qed.

(** The streaming path of [_call] against [list(_stream(...))]. *)
Lemma call_streaming_is_concat (self : LangChainInterface) (prompt : string)
    (stop : option (list string)) (run_manager : option RunManager)
    (kwargs : Kwargs) (w : World) (p : GenerateParams Knobs) :
  configured self w = Some p ->
  stream (effective stop p) = true ->
  (_call self prompt stop run_manager kwargs w).1
  = match (collect (_stream self prompt stop run_manager kwargs) w).1 with
    | (chunks, None) =>
        inr (match stop with
             | Some s => Truncation.enforce_stop_tokens (concat_texts chunks) s
             | None => concat_texts chunks
             end)
    | (_, Some e) => inl e
    end.
Proof.
  rewrite stream_effective. intros Hp Hs.
  rewrite (call_streaming_run _ _ _ _ _ _ _ Hp Hs).
  rewrite (collect_ext _ _ _ _ (stream_run _ prompt _ run_manager kwargs _ _ Hp)).
  rewrite collect_stream_loop. cbn [fst].
  by destruct (failure _).
Qed.

End AdapterFacts.

(** C1: when the effective parameters have streaming enabled, [_call]
    returns the concatenation, in arrival order, of the texts of the
    chunks [_stream] produces for the same prompt and stop list, with
    stop-sequence truncation applied to the concatenation exactly when
    the caller passed a stop list.  With streaming enabled, stop list
    ["world"] and a remote stream delivering "Hello, " and "world!",
    [_call] returns "Hello, ". *)
Theorem call_streaming_concatenates_chunks :
  (forall (S : Service) (self : LangChainInterface) (prompt : string)
      (stop : option (list string)) (run_manager : option RunManager)
      (kwargs : Kwargs) (w : World) (p : GenerateParams Knobs),
      configured self w = Some p ->
      stream (effective stop p) = true ->
      (_call self prompt stop run_manager kwargs w).1
      = match (collect (_stream self prompt stop run_manager kwargs) w).1 with
        | (chunks, None) =>
            inr (match stop with
                 | Some s => Truncation.enforce_stop_tokens (concat_texts chunks) s
                 | None => concat_texts chunks
                 end)
        | (_, Some e) => inl e
        end)
  /\ (@_call hello_service (adapter_at_0 hello_service) "Hello"
        (Some ["world"]) None tt
        (one_object hello_service (mkGenerateParams true None tt))).1
     = inr "Hello, ".
Proof.
  split.
  - intros S. apply call_streaming_is_concat.
  - reflexivity.
Qed.

Lemma call_streaming_concatenates_chunks_witness :
  @configured hello_service (adapter_at_0 hello_service)
    (one_object hello_service (mkGenerateParams true None tt))
  = Some (mkGenerateParams true None tt)
  /\ (@_call hello_service (adapter_at_0 hello_service) "Hello" None None tt
        (one_object hello_service (mkGenerateParams true None tt))).1
     = inr "Hello, world!".
Proof.
  split; [reflexivity|].
  apply (proj1 call_streaming_concatenates_chunks hello_service
           (adapter_at_0 hello_service) "Hello" None None tt
           (one_object hello_service (mkGenerateParams true None tt))
           (mkGenerateParams true None tt)); reflexivity.
Defined.

(** ** The scenarios of the specification *)

Lemma call_batch_without_stop_is_raw_witness :
  @configured hello_service (adapter_at_0 hello_service)
    (one_object hello_service (mkGenerateParams false None tt))
  = Some (mkGenerateParams false None tt)
  /\ (@_call hello_service (adapter_at_0 hello_service) "Hello" (Some []) None tt
        (one_object hello_service (mkGenerateParams false None tt))).1
     = inr "Hello, world!".
Proof.
  split; [reflexivity|].
  apply (@call_batch_without_stop_is_raw hello_service
           (adapter_at_0 hello_service) "Hello" (Some []) None tt
           (one_object hello_service (mkGenerateParams false None tt))
           (mkGenerateParams false None tt) "Hello, world!" []).
  - reflexivity.
  - reflexivity.
  - left. reflexivity.
  - reflexivity.
Defined.

Lemma effective_params_override_witness :
  @configured hello_service (adapter_at_0 hello_service)
    (one_object hello_service (mkGenerateParams false (Some ["x"]) tt))
  = Some (mkGenerateParams false (Some ["x"]) tt)
  /\ (@effective_params hello_service (adapter_at_0 hello_service) (Some ["world"])
        (one_object hello_service (mkGenerateParams false (Some ["x"]) tt))).1
     = inr (0, mkGenerateParams false (Some ["world"]) tt).
Proof.
  split; [reflexivity|].
  apply (@effective_params_override hello_service (adapter_at_0 hello_service)
           (Some ["world"])
           (one_object hello_service (mkGenerateParams false (Some ["x"]) tt))
           (mkGenerateParams false (Some ["x"]) tt)).
  reflexivity.
Defined.

(** C5 as the specification words it fails: an empty stop list passed by
    the caller does not replace the configured stop sequences. *)
Lemma empty_stop_keeps_configured :
  ~ (forall (S : Service) (self : LangChainInterface)
       (stop : option (list string)) (w : World) (p : GenerateParams Knobs),
       configured self w = Some p ->
       (effective_params self stop w).1
       = inr (resolved self w, replaced_when_present stop p)).
Proof.
  intros Hspec.
  specialize (Hspec hello_service (adapter_at_0 hello_service) (Some [])
                (one_object hello_service (mkGenerateParams false (Some ["x"]) tt))
                (mkGenerateParams false (Some ["x"]) tt) eq_refl).
  discriminate Hspec.
Qed.

Lemma stream_yields_raw_units_witness :
  @configured hello_service (adapter_at_0 hello_service)
    (one_object hello_service (mkGenerateParams true None tt))
  = Some (mkGenerateParams true None tt)
  /\ (@collect hello_service
        (@_stream hello_service (adapter_at_0 hello_service) "Hello"
           (Some ["world"]) None tt)
        (one_object hello_service (mkGenerateParams true None tt))).1.1
     = [@mkGenerationChunk hello_service "Hello, " [("generated_text", "Hello, ")];
        @mkGenerationChunk hello_service "world!" [("generated_text", "world!")]].
Proof.
  split; [reflexivity|].
  apply (@stream_yields_raw_units hello_service (adapter_at_0 hello_service)
           "Hello" (Some ["world"]) None tt
           (one_object hello_service (mkGenerateParams true None tt))
           (mkGenerateParams true None tt)).
  reflexivity.
Defined.

Lemma stream_failure_propagates_witness :
  @configured failing_service (adapter_at_0 failing_service)
    (one_object failing_service (mkGenerateParams true None tt))
  = Some (mkGenerateParams true None tt)
  /\ (@pulls failing_service 2
        (Some (@_stream failing_service (adapter_at_0 failing_service) "Hello"
                 None None tt))
        (one_object failing_service (mkGenerateParams true None tt))).1
     = [@Item failing_service
          (@mkGenerationChunk failing_service "Hello, "
             [("generated_text", "Hello, ")]);
        @Raised failing_service (@ServiceError failing_service "transport error")]
  /\ (@_call failing_service (adapter_at_0 failing_service) "Hello" None None tt
        (one_object failing_service (mkGenerateParams true None tt))).1
     = inl (@ServiceError failing_service "transport error").
Proof.
  split; [reflexivity|].
  pose proof (@stream_failure_propagates failing_service
                (adapter_at_0 failing_service) "Hello" None None tt
                (one_object failing_service (mkGenerateParams true None tt))
                (mkGenerateParams true None tt) ["Hello, "] "transport error"
                eq_refl eq_refl) as [Hpulls Hcall].
  split; [exact Hpulls | exact (Hcall eq_refl)].
Defined.

Lemma notification_runs_on_next_pull_witness :
  @configured hello_service (adapter_at_0 hello_service)
    (one_object hello_service (mkGenerateParams true None tt))
  = Some (mkGenerateParams true None tt)
  /\ trace (@pulls hello_service 2
              (Some (@_stream hello_service (adapter_at_0 hello_service) "Hello"
                       None (Some tt) tt))
              (one_object hello_service (mkGenerateParams true None tt))).2
     = [@LogInfo hello_service "Chunk received: Hello, ";
        @Yielded hello_service
          (@mkGenerationChunk hello_service "Hello, " [("generated_text", "Hello, ")]);
        @OnLlmNewToken hello_service tt "Hello, " "Hello, ";
        @LogInfo hello_service "Chunk received: world!";
        @Yielded hello_service
          (@mkGenerationChunk hello_service "world!" [("generated_text", "world!")])].
Proof.
  split; [reflexivity|].
  exact (f_equal (fun out => trace out.2)
           (@notification_runs_on_next_pull hello_service
              (adapter_at_0 hello_service) "Hello" None tt tt
              (one_object hello_service (mkGenerateParams true None tt))
              (mkGenerateParams true None tt) ["Hello, "] "world!" Ended
              eq_refl eq_refl)).
Defined.

(** ** The stop override is written into the configured object *)

(** C3 does not hold of the code: [params] at line 78 is the configured
    object itself, so the assignment of line 79 (116) stays in it.  An
    adapter configured without stop sequences has the caller's stop list
    as its configured stop sequences after one [_call], and after the
    first item pulled from [_stream]. *)
Theorem call_persists_stop_override :
  @configured hello_service (adapter_at_0 hello_service)
    (one_object hello_service (mkGenerateParams false None tt))
  = Some (mkGenerateParams false None tt)
  /\ @configured hello_service (adapter_at_0 hello_service)
       (@_call hello_service (adapter_at_0 hello_service) "Hello"
          (Some ["world"]) None tt
          (one_object hello_service (mkGenerateParams false None tt))).2
     = Some (mkGenerateParams false (Some ["world"]) tt)
  /\ @configured hello_service (adapter_at_0 hello_service)
       (@pulls hello_service 1
          (Some (@_stream hello_service (adapter_at_0 hello_service) "Hello"
                   (Some ["world"]) None tt))
          (one_object hello_service (mkGenerateParams false None tt))).2
     = Some (mkGenerateParams false (Some ["world"]) tt).
Proof. repeat split; reflexivity. Qed.

(** An adapter without configured parameters works on a fresh object:
    there the override does not outlive the call. *)
Lemma call_without_params_persists_nothing :
  @configured hello_service (@mkLangChainInterface hello_service None None None)
    (@_call hello_service (@mkLangChainInterface hello_service None None None)
       "Hello" (Some ["world"]) None tt (@mkWorld hello_service [] [])).2
  = Some (@default_params hello_service).
Proof. reflexivity. Qed.

(** ** Unknown constructor arguments are rejected *)

Section ConstructorFacts.
Context `{Service}.

Lemma extra_fields_spec (kwargs : gmap string Value) (name : string) :
  name ∈ extra_fields kwargs
  <-> is_Some (kwargs !! name) /\ name ∉ declared_fields.
Proof.
  unfold extra_fields. rewrite list_elem_of_filter, list_elem_of_fmap. split.
  - intros [Hnot ([k v] & -> & Hin)]. apply elem_of_map_to_list in Hin. eauto.
  - intros [[v Hv] Hnot]. split; [done|]. exists (name, v).
    split; [done|]. by apply elem_of_map_to_list.
Qed.

(** C7: a construction attempt that passes a keyword argument naming
    none of the declared fields [credentials], [model], [params] fails
    with a validation error that reports that name; no adapter is built,
    so no call can follow. *)
Theorem init_rejects_unknown_fields (kwargs : gmap string Value) (name : string) :
  is_Some (kwargs !! name) ->
  name ∉ declared_fields ->
  exists names, init kwargs = inl (ExtraForbidden names) /\ name ∈ names.
Proof.
  intros Hsome Hnot.
  assert (name ∈ extra_fields kwargs) as Hin by by apply extra_fields_spec.
  unfold init. destruct (extra_fields kwargs) as [|n ns] eqn:E.
  - by apply elem_of_nil in Hin.
  - by exists (n :: ns).
Qed.

(** Without unknown names the extra-field check passes. *)
Lemma init_accepts_declared_fields (kwargs : gmap string Value) :
  (forall name, is_Some (kwargs !! name) -> name ∈ declared_fields) ->
  extra_fields kwargs = [].
Proof.
  intros Hall. destruct (extra_fields kwargs) as [|n ns] eqn:E; [done|].
  assert (n ∈ extra_fields kwargs) as Hin by (rewrite E; apply list_elem_of_here).
  apply extra_fields_spec in Hin as [Hsome Hnot]. by destruct Hnot; apply Hall.
Qed.

End ConstructorFacts.

(** The call of the docstrings, lines 75 and 111: [model_id] is not a
    declared field. *)
Lemma init_rejects_unknown_fields_witness :
  is_Some (docstring_kwargs !! "model_id")
  /\ ("model_id" ∉ declared_fields)
  /\ exists names,
       @init hello_service docstring_kwargs = inl (ExtraForbidden names)
       /\ "model_id" ∈ names.
Proof.
  assert (is_Some (docstring_kwargs !! "model_id")) as Hsome
    by (unfold docstring_kwargs; rewrite lookup_insert_eq; eauto).
  assert ("model_id" ∉ declared_fields) as Hnot
    by (apply (bool_decide_unpack _); vm_compute; exact I).
  split; [exact Hsome|]. split; [exact Hnot|].
  exact (@init_rejects_unknown_fields hello_service docstring_kwargs
           "model_id" Hsome Hnot).
Defined.

(** ** Importing the module without langchain *)

Module PreludeFacts.
Import Prelude.

Lemma from_import_top_missing (env : Env) (name : string) (rest : list string) :
  [name] ∉ env ->
  from_import env (name :: rest) = inl (ModuleNotFoundError name).
Proof.
  intros Hmiss. unfold from_import. cbn [import_from app].
  by rewrite bool_decide_eq_false_2.
Qed.

Lemma from_import_top_present (env : Env) (name : string) :
  [name] ∈ env -> from_import env [name] = inr tt.
Proof.
  intros Hin. unfold from_import. cbn [import_from app].
  by rewrite bool_decide_eq_true_2.
Qed.

(** Whenever the langchain package is missing, it is the unguarded
    import of line 5 that raises. *)
Lemma load_module_without_langchain (env : Env) :
  ["logging"] ∈ env -> ["typing"] ∈ env -> ["langchain"] ∉ env ->
  load_module env = inl (ModuleNotFoundError "langchain").
Proof.
  intros Hlog Htyp Hmiss. unfold load_module.
  rewrite !from_import_top_present by done. cbn [seq].
  by rewrite from_import_top_missing.
Qed.

(** The guard of lines 9-13 does its work when the two unguarded
    imports pass and one of the guarded ones fails. *)
Lemma guarded_import_gives_hint :
  load_module
    [["logging"]; ["typing"]; ["pydantic"]; ["langchain"];
     ["langchain"; "callbacks"]; ["langchain"; "callbacks"; "manager"];
     ["langchain"; "schema"]; ["langchain"; "schema"; "output"]]
  = inl (ImportError install_hint).
Proof. vm_compute. reflexivity. Qed.

(** C9 does not hold of the code: without langchain the module fails to
    load at line 5, before the guarded imports of lines 9-13 are
    reached, and the exception is Python's own [ModuleNotFoundError]
    whose message names the missing module and says nothing about the
    extension to install. *)
Theorem load_without_langchain_misses_hint :
  load_module env_without_langchain = inl (ModuleNotFoundError "langchain")
  /\ message (ModuleNotFoundError "langchain") = "No module named 'langchain'"
  /\ load_module env_without_langchain <> inl (ImportError install_hint).
Proof.
  assert (load_module env_without_langchain = inl (ModuleNotFoundError "langchain"))
    as Hload by (vm_compute; reflexivity).
  split; [exact Hload|]. split; [reflexivity|].
  rewrite Hload. discriminate.
Qed.

End PreludeFacts.

(** * Further properties *)

(** ** Truncation *)

Module TruncationMore.
Import Truncation TruncationFacts.

Lemma enforce_empty (stop : list string) : enforce_stop_tokens "" stop = "".
Proof. cbn. by destruct (starts_with_any stop ""). Qed.

(** The truncated text is a prefix of the text. *)
Theorem enforce_is_prefix (T : string) (stop : list string) :
  exists post, T = enforce_stop_tokens T stop +:+ post.
Proof.
  induction T as [|c T [post IH]].
  - exists "". by rewrite enforce_empty.
  - cbn [enforce_stop_tokens]. destruct (starts_with_any stop (String c T)).
    + by exists (String c T).
    + exists post. rewrite append_cons. by rewrite <- IH.
Qed.

Lemma prefix_of_prefix (s a b post : string) :
  String.prefix s a = true -> b = a +:+ post -> String.prefix s b = true.
Proof.
  rewrite !prefix_app. intros [q ->] ->. exists (q +:+ post).
  clear. induction s as [|c s IH]; [done|]. rewrite !append_cons. by rewrite IH.
Qed.

Lemma starts_with_any_prefix (stop : list string) (a b post : string) :
  b = a +:+ post -> starts_with_any stop b = false ->
  starts_with_any stop a = false.
Proof.
  intros Hb Hno. apply not_true_iff_false. intros Hyes.
  apply not_true_iff_false in Hno. apply Hno.
  unfold starts_with_any in *. apply existsb_exists in Hyes as (s & Hin & Hs).
  apply existsb_exists. exists s. split; [done|]. by eapply prefix_of_prefix.
Qed.

Lemma starts_with_any_enforced (stop : list string) (c : ascii) (T : string) :
  starts_with_any stop (String c T) = false ->
  starts_with_any stop (String c (enforce_stop_tokens T stop)) = false.
Proof.
  intros Hno. destruct (enforce_is_prefix T stop) as [post Hpost].
  apply (starts_with_any_prefix stop _ (String c T) post); [|done].
  rewrite append_cons. by rewrite <- Hpost.
Qed.

(** Truncating a truncated text with the same stop list changes
    nothing. *)
Theorem enforce_idempotent (T : string) (stop : list string) :
  enforce_stop_tokens (enforce_stop_tokens T stop) stop
  = enforce_stop_tokens T stop.
Proof.
  induction T as [|c T IH].
  - by rewrite !enforce_empty.
  - cbn [enforce_stop_tokens].
    destruct (starts_with_any stop (String c T)) eqn:E.
    + apply enforce_empty.
    + cbn [enforce_stop_tokens]. rewrite (starts_with_any_enforced _ _ _ E).
      by rewrite IH.
Qed.

Lemma occurs_at_empty (s : string) (i : nat) : occurs_at s "" i -> s = "".
Proof.
  intros (pre & post & Heq & _). destruct pre; [|done]. by destruct s.
Qed.

(** No non-empty stop string occurs anywhere in the truncated text. *)
Theorem enforce_leaves_no_stop (T : string) (stop : list string) (s : string)
    (i : nat) :
  s ∈ stop -> s <> "" -> ~ occurs_at s (enforce_stop_tokens T stop) i.
Proof.
  intros Hin Hne. revert i. induction T as [|c T IH]; intros i Hocc.
  - rewrite enforce_empty in Hocc. by apply occurs_at_empty in Hocc.
  - cbn [enforce_stop_tokens] in Hocc.
    destruct (starts_with_any stop (String c T)) eqn:E.
    + by apply occurs_at_empty in Hocc.
    + destruct i as [|i].
      * apply starts_with_any_enforced in E.
        rewrite starts_with_any_false in E. by apply (E s).
      * apply occurs_at_S in Hocc. by apply (IH i).
Qed.

Lemma enforce_leaves_no_stop_witness :
  ("world" ∈ ["world"]) /\ "world" <> ""
  /\ ~ occurs_at "world" (enforce_stop_tokens "Hello, world!" ["world"]) 7.
Proof.
  assert ("world" ∈ ["world"]) as Hin by apply list_elem_of_here.
  assert ("world" <> "") as Hne by discriminate.
  split; [exact Hin|]. split; [exact Hne|].
  exact (enforce_leaves_no_stop "Hello, world!" ["world"] "world" 7 Hin Hne).
Defined.

End TruncationMore.

(** ** The batch path of [_call] *)

Section BatchMore.
Context `{Service}.

(** On the batch path the text is truncated with the caller's stop list
    when that list is non-empty, whatever is configured, and with the
    configured stop sequences, if any, otherwise. *)
Theorem call_batch_truncates_with_effective_stop (self : LangChainInterface)
    (prompt : string) (stop : option (list string))
    (run_manager : option RunManager) (kwargs : Kwargs) (w : World)
    (p : GenerateParams Knobs) (first : Response) (others : list Response) :
  configured self w = Some p ->
  stream p = false ->
  generate (handle self stop p) [prompt] kwargs = inr (first :: others) ->
  (forall s ss, stop = Some (s :: ss) ->
     (_call self prompt stop run_manager kwargs w).1
     = inr (Truncation.enforce_stop_tokens (generated_text first) (s :: ss)))
  /\ (truthy stop = false ->
      (_call self prompt stop run_manager kwargs w).1
      = inr (match stop_sequences p with
             | Some configured_stop =>
                 Truncation.enforce_stop_tokens (generated_text first) configured_stop
             | None => generated_text first
             end)).
Proof.
  intros Hp Hs Hgen. rewrite (call_batch_run _ _ _ _ _ _ _ Hp Hs), Hgen. cbn [fst].
  split.
  - by intros s ss ->.
  - intros Hfalsy. unfold effective, py_or. rewrite Hfalsy. done.
Qed.

(** A failure of the remote batch call reaches the caller as it is, and
    nothing is logged. *)
Theorem call_batch_propagates_service_error (self : LangChainInterface)
    (prompt : string) (stop : option (list string))
    (run_manager : option RunManager) (kwargs : Kwargs) (w : World)
    (p : GenerateParams Knobs) (e : Exn) :
  configured self w = Some p ->
  stream p = false ->
  generate (handle self stop p) [prompt] kwargs = inl e ->
  (_call self prompt stop run_manager kwargs w).1 = inl (ServiceError e)
  /\ trace (_call self prompt stop run_manager kwargs w).2 = trace w.
Proof.
  intros Hp Hs Hgen. rewrite (call_batch_run _ _ _ _ _ _ _ Hp Hs), Hgen.
  split; [done|]. unfold world_after. by destruct (params self).
Qed.

(** An empty result list makes [[0]] of line 89 raise [IndexError];
    nothing is logged. *)
Theorem call_batch_empty_result_raises (self : LangChainInterface)
    (prompt : string) (stop : option (list string))
    (run_manager : option RunManager) (kwargs : Kwargs) (w : World)
    (p : GenerateParams Knobs) :
  configured self w = Some p ->
  stream p = false ->
  generate (handle self stop p) [prompt] kwargs = inr [] ->
  (_call self prompt stop run_manager kwargs w).1 = inl IndexError
  /\ trace (_call self prompt stop run_manager kwargs w).2 = trace w.
Proof.
  intros Hp Hs Hgen. rewrite (call_batch_run _ _ _ _ _ _ _ Hp Hs), Hgen.
  split; [done|]. unfold world_after. by destruct (params self).
Qed.

(** The batch path logs one record, and it carries the text as the
    remote service produced it, before any truncation; the run manager
    is not notified. *)
Theorem call_batch_logs_raw_text (self : LangChainInterface)
    (prompt : string) (stop : option (list string))
    (run_manager : option RunManager) (kwargs : Kwargs) (w : World)
    (p : GenerateParams Knobs) (first : Response) (others : list Response) :
  configured self w = Some p ->
  stream p = false ->
  generate (handle self stop p) [prompt] kwargs = inr (first :: others) ->
  trace (_call self prompt stop run_manager kwargs w).2
  = (trace w ++ [LogInfo ("Output of GENAI call: " +:+ generated_text first)])%list.
Proof.
  intros Hp Hs Hgen. rewrite (call_batch_run _ _ _ _ _ _ _ Hp Hs), Hgen.
  cbn [snd add_trace trace]. unfold world_after. by destruct (params self).
Qed.

End BatchMore.

Lemma call_batch_truncates_with_effective_stop_witness :
  @configured hello_service (adapter_at_0 hello_service)
    (one_object hello_service (mkGenerateParams false (Some [","]) tt))
  = Some (mkGenerateParams false (Some [","]) tt)
  /\ (@_call hello_service (adapter_at_0 hello_service) "Hello"
        (Some ["world"]) None tt
        (one_object hello_service (mkGenerateParams false (Some [","]) tt))).1
     = inr "Hello, ".
Proof.
  split; [reflexivity|].
  exact (proj1 (@call_batch_truncates_with_effective_stop hello_service
                  (adapter_at_0 hello_service) "Hello" (Some ["world"]) None tt
                  (one_object hello_service (mkGenerateParams false (Some [","]) tt))
                  (mkGenerateParams false (Some [","]) tt) "Hello, world!" []
                  eq_refl eq_refl eq_refl)
           "world" [] eq_refl).
Defined.

Lemma call_batch_propagates_service_error_witness :
  @configured failing_service (adapter_at_0 failing_service)
    (one_object failing_service (mkGenerateParams false None tt))
  = Some (mkGenerateParams false None tt)
  /\ (@_call failing_service (adapter_at_0 failing_service) "Hello" None None tt
        (one_object failing_service (mkGenerateParams false None tt))).1
     = inl (@ServiceError failing_service "transport error").
Proof.
  split; [reflexivity|].
  exact (proj1 (@call_batch_propagates_service_error failing_service
                  (adapter_at_0 failing_service) "Hello" None None tt
                  (one_object failing_service (mkGenerateParams false None tt))
                  (mkGenerateParams false None tt) "transport error"
                  eq_refl eq_refl eq_refl)).
Defined.

Lemma call_batch_empty_result_raises_witness :
  @configured (scripted (inr []) Ended) (adapter_at_0 (scripted (inr []) Ended))
    (one_object (scripted (inr []) Ended) (mkGenerateParams false None tt))
  = Some (mkGenerateParams false None tt)
  /\ (@_call (scripted (inr []) Ended) (adapter_at_0 (scripted (inr []) Ended))
        "Hello" None None tt
        (one_object (scripted (inr []) Ended) (mkGenerateParams false None tt))).1
     = inl (@IndexError (scripted (inr []) Ended)).
Proof.
  split; [reflexivity|].
  exact (proj1 (@call_batch_empty_result_raises (scripted (inr []) Ended)
                  (adapter_at_0 (scripted (inr []) Ended)) "Hello" None None tt
                  (one_object (scripted (inr []) Ended)
                     (mkGenerateParams false None tt))
                  (mkGenerateParams false None tt) eq_refl eq_refl eq_refl)).
Defined.

Lemma call_batch_logs_raw_text_witness :
  @configured hello_service (adapter_at_0 hello_service)
    (one_object hello_service (mkGenerateParams false (Some ["world"]) tt))
  = Some (mkGenerateParams false (Some ["world"]) tt)
  /\ trace (@_call hello_service (adapter_at_0 hello_service) "Hello" None None tt
              (one_object hello_service
                 (mkGenerateParams false (Some ["world"]) tt))).2
     = [@LogInfo hello_service "Output of GENAI call: Hello, world!"].
Proof.
  split; [reflexivity|].
  exact (@call_batch_logs_raw_text hello_service (adapter_at_0 hello_service)
           "Hello" None None tt
           (one_object hello_service (mkGenerateParams false (Some ["world"]) tt))
           (mkGenerateParams false (Some ["world"]) tt) "Hello, world!" []
           eq_refl eq_refl eq_refl).
Defined.

(** ** Draining and over-pulling [_stream] *)

Section StreamMore.
Context `{Service}.

Lemma pulls_finished (n : nat) (w : World) :
  pulls n None w = (replicate n StopIteration, w).
Proof. induction n as [|n IH]; [done|]. rewrite pulls_S. cbn [next]. by rewrite IH. Qed.

Lemma pulls_ended (run_manager : option RunManager) (rs : list Response)
    (k : nat) (w : World) :
  pulls (S (length rs + k)) (Some (stream_loop run_manager (deliver rs Ended))) w
  = ((map (fun x => Item (chunk_of x)) rs ++ replicate (S k) StopIteration)%list,
     add_trace w (consumed_events run_manager rs)).
Proof.
  revert w. induction rs as [|r0 rs IH]; intros w.
  - cbn [length deliver fold_right plus]. rewrite pulls_S. cbn [next stream_loop].
    unfold mret, M_ret. rewrite pulls_finished.
    cbn [map consumed_events flat_map app]. by rewrite add_trace_nil.
  - cbn [length deliver fold_right plus]. rewrite pulls_S, next_unit.
    rewrite (pulls_ext _ _ _ _ _ (resume_run _ _ _ _)).
    fold (deliver rs (@Ended Response Exn)). rewrite IH.
    cbn [map consumed_events flat_map app].
    by rewrite !add_trace_app, <- !app_assoc.
Qed.

Lemma pulls_failed_more (run_manager : option RunManager) (rs : list Response)
    (e : Exn) (k : nat) (w : World) :
  pulls (S (length rs + k)) (Some (stream_loop run_manager (deliver rs (Failed e)))) w
  = ((map (fun x => Item (chunk_of x)) rs
      ++ Raised (ServiceError e) :: replicate k StopIteration)%list,
     add_trace w (consumed_events run_manager rs)).
Proof.
  revert w. induction rs as [|r0 rs IH]; intros w.
  - cbn [length deliver fold_right plus]. rewrite pulls_S. cbn [next stream_loop].
    unfold raise. rewrite pulls_finished.
    cbn [map consumed_events flat_map app]. by rewrite add_trace_nil.
  - cbn [length deliver fold_right plus]. rewrite pulls_S, next_unit.
    rewrite (pulls_ext _ _ _ _ _ (resume_run _ _ _ _)).
    fold (deliver rs (@Failed Response Exn e)). rewrite IH.
    cbn [map consumed_events flat_map app].
    by rewrite !add_trace_app, <- !app_assoc.
Qed.

(** A consumer that drains [_stream] gets one log record, one chunk and,
    with a run manager, one notification per response unit, in that
    order, the last unit included; this also holds when the stream ends
    in a failure. *)
Theorem stream_drained_notifies_every_unit (self : LangChainInterface)
    (prompt : string) (stop : option (list string)) (rm : RunManager)
    (kwargs : Kwargs) (w : World) (p : GenerateParams Knobs) :
  configured self w = Some p ->
  trace (collect (_stream self prompt stop (Some rm) kwargs) w).2
  = (trace w
     ++ flat_map (fun x =>
                    [LogInfo ("Chunk received: " +:+ generated_text x);
                     Yielded (chunk_of x);
                     OnLlmNewToken rm (generated_text x) x])
          (units (generate_stream (handle self stop p) [prompt] kwargs)))%list.
Proof.
  intros Hp.
  rewrite (collect_ext _ _ _ _ (stream_run _ prompt _ (Some rm) kwargs _ _ Hp)).
  rewrite collect_stream_loop. cbn [snd add_trace trace].
  unfold world_after. by destruct (params self).
Qed.

(** Without a run manager nothing is notified: the trace of a drained
    [_stream] has a log record and a chunk per unit and nothing else. *)
Theorem stream_without_run_manager_is_silent (self : LangChainInterface)
    (prompt : string) (stop : option (list string))
    (kwargs : Kwargs) (w : World) (p : GenerateParams Knobs) :
  configured self w = Some p ->
  trace (collect (_stream self prompt stop None kwargs) w).2
  = (trace w
     ++ flat_map (fun x =>
                    [LogInfo ("Chunk received: " +:+ generated_text x);
                     Yielded (chunk_of x)])
          (units (generate_stream (handle self stop p) [prompt] kwargs)))%list.
Proof.
  intros Hp.
  rewrite (collect_ext _ _ _ _ (stream_run _ prompt _ None kwargs _ _ Hp)).
  rewrite collect_stream_loop. cbn [snd add_trace trace].
  unfold world_after. destruct (params self); cbn [trace]; f_equal;
    unfold consumed_events, notify_events, yield_events;
    apply flat_map_ext; intros x; by rewrite app_nil_r.
Qed.

(** In streaming mode [_call] has exactly the effects of draining
    [_stream] with the same arguments: the same store and the same
    trace, with no record of its own. *)
Theorem call_streaming_effects_are_the_streams (self : LangChainInterface)
    (prompt : string) (stop : option (list string))
    (run_manager : option RunManager) (kwargs : Kwargs) (w : World)
    (p : GenerateParams Knobs) :
  configured self w = Some p ->
  stream p = true ->
  (_call self prompt stop run_manager kwargs w).2
  = (collect (_stream self prompt stop run_manager kwargs) w).2.
Proof.
  intros Hp Hs. rewrite (call_streaming_run _ _ _ _ _ _ _ Hp Hs).
  rewrite (collect_ext _ _ _ _ (stream_run _ prompt _ run_manager kwargs _ _ Hp)).
  by rewrite collect_stream_loop.
Qed.

(** When the remote stream ends after the units [rs], the pull after
    the last chunk runs the last notification and answers
    [StopIteration], and so does every later pull, with no further
    effect. *)
Theorem stream_exhausted_stays_exhausted (self : LangChainInterface)
    (prompt : string) (stop : option (list string))
    (run_manager : option RunManager) (kwargs : Kwargs) (w : World)
    (p : GenerateParams Knobs) (rs : list Response) (k : nat) :
  configured self w = Some p ->
  generate_stream (handle self stop p) [prompt] kwargs = deliver rs Ended ->
  pulls (S (length rs + k)) (Some (_stream self prompt stop run_manager kwargs)) w
  = ((map (fun x => Item (chunk_of x)) rs ++ replicate (S k) StopIteration)%list,
     add_trace (world_after self stop w p) (consumed_events run_manager rs)).
Proof.
  intros Hp Hrest.
  rewrite (pulls_ext _ _ _ _ _ (stream_run _ prompt _ run_manager kwargs _ _ Hp)).
  by rewrite Hrest, pulls_ended.
Qed.

(** After the pull that raised the stream's failure the generator is
    finished: later pulls answer [StopIteration] and the failure is not
    raised again. *)
Theorem stream_failure_is_raised_once (self : LangChainInterface)
    (prompt : string) (stop : option (list string))
    (run_manager : option RunManager) (kwargs : Kwargs) (w : World)
    (p : GenerateParams Knobs) (rs : list Response) (e : Exn) (k : nat) :
  configured self w = Some p ->
  generate_stream (handle self stop p) [prompt] kwargs = deliver rs (Failed e) ->
  pulls (S (length rs + k)) (Some (_stream self prompt stop run_manager kwargs)) w
  = ((map (fun x => Item (chunk_of x)) rs
      ++ Raised (ServiceError e) :: replicate k StopIteration)%list,
     add_trace (world_after self stop w p) (consumed_events run_manager rs)).
Proof.
  intros Hp Hrest.
  rewrite (pulls_ext _ _ _ _ _ (stream_run _ prompt _ run_manager kwargs _ _ Hp)).
  by rewrite Hrest, pulls_failed_more.
Qed.

End StreamMore.

Lemma stream_drained_notifies_every_unit_witness :
  @configured hello_service (adapter_at_0 hello_service)
    (one_object hello_service (mkGenerateParams true None tt))
  = Some (mkGenerateParams true None tt)
  /\ trace (@collect hello_service
              (@_stream hello_service (adapter_at_0 hello_service) "Hello"
                 None (Some tt) tt)
              (one_object hello_service (mkGenerateParams true None tt))).2
     = [@LogInfo hello_service "Chunk received: Hello, ";
        @Yielded hello_service
          (@mkGenerationChunk hello_service "Hello, " [("generated_text", "Hello, ")]);
        @OnLlmNewToken hello_service tt "Hello, " "Hello, ";
        @LogInfo hello_service "Chunk received: world!";
        @Yielded hello_service
          (@mkGenerationChunk hello_service "world!" [("generated_text", "world!")]);
        @OnLlmNewToken hello_service tt "world!" "world!"].
Proof.
  split; [reflexivity|].
  exact (@stream_drained_notifies_every_unit hello_service
           (adapter_at_0 hello_service) "Hello" None tt tt
           (one_object hello_service (mkGenerateParams true None tt))
           (mkGenerateParams true None tt) eq_refl).
Defined.

Lemma stream_without_run_manager_is_silent_witness :
  @configured hello_service (adapter_at_0 hello_service)
    (one_object hello_service (mkGenerateParams true None tt))
  = Some (mkGenerateParams true None tt)
  /\ trace (@collect hello_service
              (@_stream hello_service (adapter_at_0 hello_service) "Hello"
                 None None tt)
              (one_object hello_service (mkGenerateParams true None tt))).2
     = [@LogInfo hello_service "Chunk received: Hello, ";
        @Yielded hello_service
          (@mkGenerationChunk hello_service "Hello, " [("generated_text", "Hello, ")]);
        @LogInfo hello_service "Chunk received: world!";
        @Yielded hello_service
          (@mkGenerationChunk hello_service "world!" [("generated_text", "world!")])].
Proof.
  split; [reflexivity|].
  exact (@stream_without_run_manager_is_silent hello_service
           (adapter_at_0 hello_service) "Hello" None tt
           (one_object hello_service (mkGenerateParams true None tt))
           (mkGenerateParams true None tt) eq_refl).
Defined.

Lemma call_streaming_effects_are_the_streams_witness :
  @configured hello_service (adapter_at_0 hello_service)
    (one_object hello_service (mkGenerateParams true None tt))
  = Some (mkGenerateParams true None tt)
  /\ (@_call hello_service (adapter_at_0 hello_service) "Hello"
        (Some ["world"]) (Some tt) tt
        (one_object hello_service (mkGenerateParams true None tt))).2
     = (@collect hello_service
          (@_stream hello_service (adapter_at_0 hello_service) "Hello"
             (Some ["world"]) (Some tt) tt)
          (one_object hello_service (mkGenerateParams true None tt))).2.
Proof.
  split; [reflexivity|].
  exact (@call_streaming_effects_are_the_streams hello_service
           (adapter_at_0 hello_service) "Hello" (Some ["world"]) (Some tt) tt
           (one_object hello_service (mkGenerateParams true None tt))
           (mkGenerateParams true None tt) eq_refl eq_refl).
Defined.

Lemma stream_exhausted_stays_exhausted_witness :
  @configured hello_service (adapter_at_0 hello_service)
    (one_object hello_service (mkGenerateParams true None tt))
  = Some (mkGenerateParams true None tt)
  /\ (@pulls hello_service 4
        (Some (@_stream hello_service (adapter_at_0 hello_service) "Hello"
                 None None tt))
        (one_object hello_service (mkGenerateParams true None tt))).1
     = [@Item hello_service
          (@mkGenerationChunk hello_service "Hello, " [("generated_text", "Hello, ")]);
        @Item hello_service
          (@mkGenerationChunk hello_service "world!" [("generated_text", "world!")]);
        @StopIteration hello_service; @StopIteration hello_service].
Proof.
  split; [reflexivity|].
  exact (f_equal fst
           (@stream_exhausted_stays_exhausted hello_service
              (adapter_at_0 hello_service) "Hello" None None tt
              (one_object hello_service (mkGenerateParams true None tt))
              (mkGenerateParams true None tt) ["Hello, "; "world!"] 1
              eq_refl eq_refl)).
Defined.

Lemma stream_failure_is_raised_once_witness :
  @configured failing_service (adapter_at_0 failing_service)
    (one_object failing_service (mkGenerateParams true None tt))
  = Some (mkGenerateParams true None tt)
  /\ (@pulls failing_service 3
        (Some (@_stream failing_service (adapter_at_0 failing_service) "Hello"
                 None None tt))
        (one_object failing_service (mkGenerateParams true None tt))).1
     = [@Item failing_service
          (@mkGenerationChunk failing_service "Hello, "
             [("generated_text", "Hello, ")]);
        @Raised failing_service (@ServiceError failing_service "transport error");
        @StopIteration failing_service].
Proof.
  split; [reflexivity|].
  exact (f_equal fst
           (@stream_failure_is_raised_once failing_service
              (adapter_at_0 failing_service) "Hello" None None tt
              (one_object failing_service (mkGenerateParams true None tt))
              (mkGenerateParams true None tt) ["Hello, "] "transport error" 1
              eq_refl eq_refl)).
Defined.

(** ** The store across calls *)

Section StoreMore.
Context `{Service}.

Lemma call_heap (self : LangChainInterface) (prompt : string)
    (stop : option (list string)) (run_manager : option RunManager)
    (kwargs : Kwargs) (w : World) (p : GenerateParams Knobs) :
  configured self w = Some p ->
  heap (_call self prompt stop run_manager kwargs w).2
  = heap (world_after self stop w p).
Proof.
  intros Hp. destruct (stream p) eqn:Hs.
  - by rewrite (call_streaming_run _ _ _ _ _ _ _ Hp Hs).
  - rewrite (call_batch_run _ _ _ _ _ _ _ Hp Hs).
    by destruct (generate _ _ _) as [e|[|first others]].
Qed.

(** Whatever path it takes and however it ends, [_call] writes to no
    parameters object but the one it works on: every other reference
    reads as before. *)
Theorem call_touches_only_its_object (self : LangChainInterface)
    (prompt : string) (stop : option (list string))
    (run_manager : option RunManager) (kwargs : Kwargs) (w : World)
    (p : GenerateParams Knobs) (l : loc) :
  configured self w = Some p ->
  l <> resolved self w ->
  heap (_call self prompt stop run_manager kwargs w).2 !! l = heap w !! l.
Proof.
  intros Hp Hl. rewrite (call_heap _ _ _ _ _ _ _ Hp).
  unfold world_after, resolved in *. destruct (params self) as [l0|]; cbn [heap].
  - by apply list_lookup_insert_ne.
  - destruct (decide (l < length (heap w))) as [Hlt|Hge].
    + by apply lookup_app_l.
    + rewrite (lookup_ge_None_2 (heap w)) by lia.
      apply lookup_ge_None_2. rewrite length_app. cbn. lia.
Qed.

(** The only field [_call] ever changes in the configured parameters is
    the stop sequences: the streaming flag and every other option read
    as before. *)
Theorem call_preserves_stream_and_knobs (self : LangChainInterface)
    (prompt : string) (stop : option (list string))
    (run_manager : option RunManager) (kwargs : Kwargs) (w : World)
    (p : GenerateParams Knobs) :
  configured self w = Some p ->
  exists p', configured self (_call self prompt stop run_manager kwargs w).2 = Some p'
             /\ stream p' = stream p /\ knobs p' = knobs p.
Proof.
  intros Hp. destruct (params self) as [l|] eqn:Hl.
  - exists (effective stop p). split; [|done].
    apply call_leaves_effective_params; [done|]. rewrite Hl. eauto.
  - exists p. split; [|done]. unfold configured in *. by rewrite Hl in *.
Qed.

(** A stop list passed to one call is the effective stop list of a later
    call that passes none. *)
Theorem stop_override_carries_over (self : LangChainInterface)
    (prompt : string) (stop : list string)
    (run_manager : option RunManager) (kwargs : Kwargs) (w : World)
    (p : GenerateParams Knobs) :
  configured self w = Some p ->
  is_Some (params self) ->
  stop <> [] ->
  (effective_params self None
     (_call self prompt (Some stop) run_manager kwargs w).2).1
  = inr (resolved self w, with_stop_sequences (Some stop) p).
Proof.
  intros Hp Hl Hne.
  pose proof (call_leaves_effective_params self prompt (Some stop) run_manager
                kwargs w p Hp Hl) as Hafter.
  rewrite (effective_params_run _ _ _ _ Hafter). cbn [fst].
  destruct Hl as [l Hl]. unfold resolved. rewrite Hl.
  do 2 f_equal. destruct stop as [|s ss]; [done|].
  unfold effective, py_or. cbn. apply with_stop_sequences_same.
Qed.

(** With configured parameters, running lines 78-79 a second time with
    the same stop list changes nothing: [_call] in streaming mode and
    the [_stream] it drives agree on the parameters. *)
Theorem effective_params_twice (self : LangChainInterface)
    (stop : option (list string)) (w : World) (p : GenerateParams Knobs) :
  configured self w = Some p ->
  is_Some (params self) ->
  (effective_params self stop ;; effective_params self stop) w
  = effective_params self stop w.
Proof.
  intros Hp Hl. unfold mbind at 1, M_bind at 1.
  rewrite (effective_params_run _ _ _ _ Hp).
  rewrite (effective_params_run _ _ _ _ (configured_world_after _ stop _ _ Hp Hl)).
  by rewrite effective_idem, world_after_again, resolved_world_after.
Qed.

(** [_identifying_params] reports the model name and the configured
    parameters, or the defaults when none are configured; it logs
    nothing and changes no existing object. *)
Theorem identifying_params_are_configured (self : LangChainInterface)
    (w : World) (p : GenerateParams Knobs) :
  configured self w = Some p ->
  exists l w',
    _identifying_params self w = (inr (model self, l), w')
    /\ heap w' !! l = Some p
    /\ trace w' = trace w
    /\ forall l', l' < length (heap w) -> heap w' !! l' = heap w !! l'.
Proof.
  unfold configured, _identifying_params, params_or_default.
  destruct (params self) as [l|]; intros Hp.
  - exists l, w. done.
  - injection Hp as <-. exists (length (heap w)), (mkWorld (heap w ++ [default_params]) (trace w)).
    split; [done|]. cbn [heap trace]. split; [|split; [done|]].
    + by rewrite lookup_app_r, Nat.sub_diag.
    + intros l' Hlt. by apply lookup_app_l.
Qed.

End StoreMore.

Lemma call_touches_only_its_object_witness :
  @configured hello_service (adapter_at_0 hello_service)
    (@mkWorld hello_service
       [mkGenerateParams false None tt; mkGenerateParams true (Some ["x"]) tt] [])
  = Some (mkGenerateParams false None tt)
  /\ 1 <> @resolved hello_service (adapter_at_0 hello_service)
            (@mkWorld hello_service
               [mkGenerateParams false None tt;
                mkGenerateParams true (Some ["x"]) tt] [])
  /\ heap (@_call hello_service (adapter_at_0 hello_service) "Hello"
             (Some ["world"]) None tt
             (@mkWorld hello_service
                [mkGenerateParams false None tt;
                 mkGenerateParams true (Some ["x"]) tt] [])).2 !! 1
     = Some (mkGenerateParams true (Some ["x"]) tt).
Proof.
  split; [reflexivity|]. split; [discriminate|].
  exact (@call_touches_only_its_object hello_service (adapter_at_0 hello_service)
           "Hello" (Some ["world"]) None tt
           (@mkWorld hello_service
              [mkGenerateParams false None tt;
               mkGenerateParams true (Some ["x"]) tt] [])
           (mkGenerateParams false None tt) 1 eq_refl
           ltac:(discriminate)).
Defined.

Lemma call_preserves_stream_and_knobs_witness :
  @configured hello_service (adapter_at_0 hello_service)
    (one_object hello_service (mkGenerateParams true None tt))
  = Some (mkGenerateParams true None tt)
  /\ exists p',
       @configured hello_service (adapter_at_0 hello_service)
         (@_call hello_service (adapter_at_0 hello_service) "Hello"
            (Some ["world"]) None tt
            (one_object hello_service (mkGenerateParams true None tt))).2
       = Some p'
       /\ stream p' = true /\ knobs p' = tt.
Proof.
  split; [reflexivity|].
  exact (@call_preserves_stream_and_knobs hello_service
           (adapter_at_0 hello_service) "Hello" (Some ["world"]) None tt
           (one_object hello_service (mkGenerateParams true None tt))
           (mkGenerateParams true None tt) eq_refl).
Defined.

Lemma stop_override_carries_over_witness :
  @configured hello_service (adapter_at_0 hello_service)
    (one_object hello_service (mkGenerateParams false None tt))
  = Some (mkGenerateParams false None tt)
  /\ is_Some (@params hello_service (adapter_at_0 hello_service))
  /\ ["world"] <> []
  /\ (@effective_params hello_service (adapter_at_0 hello_service) None
        (@_call hello_service (adapter_at_0 hello_service) "Hello"
           (Some ["world"]) None tt
           (one_object hello_service (mkGenerateParams false None tt))).2).1
     = inr (0, mkGenerateParams false (Some ["world"]) tt).
Proof.
  assert (is_Some (@params hello_service (adapter_at_0 hello_service))) as Hl
    by (exists 0; reflexivity).
  assert (["world"] <> []) as Hne by discriminate.
  split; [reflexivity|]. split; [exact Hl|]. split; [exact Hne|].
  exact (@stop_override_carries_over hello_service (adapter_at_0 hello_service)
           "Hello" ["world"] None tt
           (one_object hello_service (mkGenerateParams false None tt))
           (mkGenerateParams false None tt) eq_refl Hl Hne).
Defined.

Lemma effective_params_twice_witness :
  @configured hello_service (adapter_at_0 hello_service)
    (one_object hello_service (mkGenerateParams false (Some ["x"]) tt))
  = Some (mkGenerateParams false (Some ["x"]) tt)
  /\ is_Some (@params hello_service (adapter_at_0 hello_service))
  /\ (@effective_params hello_service (adapter_at_0 hello_service) (Some ["world"]) ;;
      @effective_params hello_service (adapter_at_0 hello_service) (Some ["world"]))
       (one_object hello_service (mkGenerateParams false (Some ["x"]) tt))
     = @effective_params hello_service (adapter_at_0 hello_service) (Some ["world"])
         (one_object hello_service (mkGenerateParams false (Some ["x"]) tt)).
Proof.
  assert (is_Some (@params hello_service (adapter_at_0 hello_service))) as Hl
    by (exists 0; reflexivity).
  split; [reflexivity|]. split; [exact Hl|].
  exact (@effective_params_twice hello_service (adapter_at_0 hello_service)
           (Some ["world"])
           (one_object hello_service (mkGenerateParams false (Some ["x"]) tt))
           (mkGenerateParams false (Some ["x"]) tt) eq_refl Hl).
Defined.

Lemma identifying_params_are_configured_witness :
  @configured hello_service (@mkLangChainInterface hello_service None None None)
    (one_object hello_service (mkGenerateParams true None tt))
  = Some (@default_params hello_service)
  /\ exists l w',
       @_identifying_params hello_service
         (@mkLangChainInterface hello_service None None None)
         (one_object hello_service (mkGenerateParams true None tt))
       = (inr (None, l), w')
       /\ heap w' !! l = Some (@default_params hello_service)
       /\ trace w' = []
       /\ forall l', l' < 1 ->
            heap w' !! l'
            = heap (one_object hello_service (mkGenerateParams true None tt)) !! l'.
Proof.
  split; [reflexivity|].
  exact (@identifying_params_are_configured hello_service
           (@mkLangChainInterface hello_service None None None)
           (one_object hello_service (mkGenerateParams true None tt))
           (@default_params hello_service) eq_refl).
Defined.

(** ** Which environments load the module *)

Module PreludeMore.
Import Prelude PreludeFacts.

Lemma import_step (env : Env) (parents : list string) (name : string)
    (rest : list string) :
  import_from env parents (name :: rest)
  = if bool_decide ((parents ++ [name])%list ∈ env)
    then import_from env (parents ++ [name])%list rest
    else inl (ModuleNotFoundError (dotted (parents ++ [name])%list)).
Proof. reflexivity. Qed.

Ltac import_cases :=
  unfold load_module, from_import, try_except_ImportError, seq;
  rewrite ?import_step; cbn [import_from app];
  repeat case_bool_decide.



(** In no environment without the langchain package does loading raise
    the message of line 13. *)
Theorem load_module_no_hint_without_langchain (env : Env) :
  ["langchain"] ∉ env -> load_module env <> inl (ImportError install_hint).
Proof.
  intros Hmiss. import_cases; try discriminate; contradiction.
Qed.

Lemma load_module_no_hint_without_langchain_witness :
  (["langchain"] ∉ env_without_langchain)
  /\ load_module env_without_langchain <> inl (ImportError install_hint).
Proof.
  assert (["langchain"] ∉ env_without_langchain) as Hmiss
    by (apply (bool_decide_unpack _); vm_compute; exact I).
  split; [exact Hmiss|].
  exact (load_module_no_hint_without_langchain env_without_langchain Hmiss).
Defined.

Lemma load_module_without_langchain_witness :
  (["logging"] ∈ env_without_langchain)
  /\ (["typing"] ∈ env_without_langchain)
  /\ (["langchain"] ∉ env_without_langchain)
  /\ load_module env_without_langchain = inl (ModuleNotFoundError "langchain").
Proof.
  assert (["logging"] ∈ env_without_langchain) as Hlog
    by (apply (bool_decide_unpack _); vm_compute; exact I).
  assert (["typing"] ∈ env_without_langchain) as Htyp
    by (apply (bool_decide_unpack _); vm_compute; exact I).
  assert (["langchain"] ∉ env_without_langchain) as Hmiss
    by (apply (bool_decide_unpack _); vm_compute; exact I).
  split; [exact Hlog|]. split; [exact Htyp|]. split; [exact Hmiss|].
  exact (load_module_without_langchain env_without_langchain Hlog Htyp Hmiss).
Defined.



End PreludeMore.
